(** * Class activation maps: a shallow embedding of
      [examples/class_activation_maps.py]

    The script grafts a 1x1 convolution onto the last convolutional feature
    map of a pretrained classifier, runs the two-output model, sums the
    activation channels of the best classes and overlays the map on the
    image.  Arrays are numpy arrays (a shape and a row-major buffer), the
    in-place [+=] of [postprocess] is modelled on a store of arrays, and the
    Keras graph is modelled at the level of layers, static shapes and
    weights. *)

From Stdlib Require Import String ZArith List Bool Arith Lia Permutation Sorted.
Import ListNotations.
Local Open Scope nat_scope.

(** ** Python outcomes *)

Inductive exn : Type :=
| IndexError
| ValueError
| TypeError
| cv2_error.

(** The outcome of running a piece of the script.  [Unmodelled] is not a
    Python outcome: it marks a use of the embedding outside the part of
    numpy that is modelled (an array of another rank than the ones
    [Model.predict] produces, broadcasting, a dangling reference). *)
Inductive res (X : Type) : Type :=
| Ok (x : X)
| Raise (e : exn)
| Unmodelled.

Arguments Ok {X} x.
Arguments Raise {X} e.
Arguments Unmodelled {X}.

Definition res_bind {X Y : Type} (r : res X) (k : X -> res Y) : res Y :=
  match r with
  | Ok x => k x
  | Raise e => Raise e
  | Unmodelled => Unmodelled
  end.

(** Computations on a state [S] that return, raise, or leave the model. *)
Definition M (S X : Type) : Type := S -> res X * S.

Definition ret {S X : Type} (x : X) : M S X := fun s => (Ok x, s).

Definition bind {S X Y : Type} (m : M S X) (k : X -> M S Y) : M S Y :=
  fun s =>
    match m s with
    | (Ok x, s') => k x s'
    | (Raise e, s') => (Raise e, s')
    | (Unmodelled, s') => (Unmodelled, s')
    end.

Definition lift {S X : Type} (r : res X) : M S X := fun s => (r, s).

Notation "x <- m ;; k" := (bind m (fun x => k))
  (at level 61, m at next level, right associativity).
Notation "m ;;; k" := (bind m (fun _ => k))
  (at level 61, right associativity).

Fixpoint for_each {S X : Type} (xs : list X) (body : X -> M S unit)
  : M S unit :=
  match xs with
  | [] => ret tt
  | x :: xs' => body x ;;; for_each xs' body
  end.

(** ** Lists updated by index, Python slices *)

Fixpoint update {X : Type} (n : nat) (x : X) (l : list X) : list X :=
  match l, n with
  | [], _ => []
  | _ :: t, 0 => x :: t
  | y :: t, S n' => y :: update n' x t
  end.

Fixpoint map2 {X Y Z : Type} (f : X -> Y -> Z) (xs : list X) (ys : list Y)
  : list Z :=
  match xs, ys with
  | x :: xs', y :: ys' => f x y :: map2 f xs' ys'
  | _, _ => []
  end.

(** The first position of the slice [l[start:]] of a sequence of length [n]:
    a negative [start] counts from the end, and the result is clipped to
    [0 .. n]. *)
Definition slice_start (start : Z) (n : nat) : nat :=
  if (start <? 0)%Z
  then Z.to_nat (Z.max 0 (start + Z.of_nat n))
  else Nat.min (Z.to_nat start) n.

(** [l[start:]] *)
Definition slice_from {X : Type} (start : Z) (l : list X) : list X :=
  skipn (slice_start start (length l)) l.

Definition shape_eqb (s1 s2 : list nat) : bool :=
  if list_eq_dec Nat.eq_dec s1 s2 then true else false.

(** Number of elements of an array of the given shape. *)
Definition size_of (sh : list nat) : nat := fold_right Nat.mul 1 sh.

(** ** numpy arrays over an abstract scalar type

    The scalars are floats in the script; the development only uses a zero,
    an addition (neither associativity nor commutativity is assumed) and the
    comparison that [np.argsort] sorts by. *)

Section Numpy.

Variable A : Type.
Variable zero : A.
Variable add : A -> A -> A.
Variable leb : A -> A -> bool.

Record ndarray : Type := mk_ndarray {
  shape : list nat;
  data : list A
}.

(** [a[0]]: integer index 0 on the first axis. *)
Definition getitem0 (a : ndarray) : res ndarray :=
  match shape a with
  | [] => Raise IndexError
  | 0 :: _ => Raise IndexError
  | S _ :: rest =>
      Ok {| shape := rest; data := firstn (size_of rest) (data a) |}
  end.

(** The buffer of [a[0]]. *)
Definition row0 (a : ndarray) : list A :=
  firstn (size_of (tl (shape a))) (data a).

(** The buffer of an array holds one scalar per position of its shape. *)
Definition well_formed (a : ndarray) : Prop :=
  length (data a) = size_of (shape a).

(** [np.argsort], an external function: numpy documents that it returns the
    indices that sort the array, and leaves the order of equal keys to the
    sorting algorithm.  It is a parameter of the embedding, constrained by
    [is_argsort] where a property needs it; [stable_argsort] below is one
    instance. *)
Variable argsort : list A -> list nat.

Definition key (row : list A) (i : nat) : A := nth i row zero.

Definition is_argsort (row : list A) (idx : list nat) : Prop :=
  Permutation idx (seq 0 (length row)) /\
  StronglySorted (fun i j => leb (key row i) (key row j) = true) idx.

(** [np.argsort(a)] for a one-dimensional [a]. *)
Definition np_argsort (a : ndarray) : res (list nat) :=
  match shape a with
  | [_] => Ok (argsort (data a))
  | _ => Unmodelled
  end.

(** The buffer of [t[0, :, :, i]] for a buffer of shape [(B, H, W, C)]:
    pixel [p = h * W + w] of batch 0 holds channel [i] at [p * C + i]. *)
Definition channel_data (H W C : nat) (d : list A) (i : nat) : list A :=
  map (fun p => nth (p * C + i) d zero) (seq 0 (H * W)).

(** [t[0, :, :, i]] for a non-negative [i]. *)
Definition channel (t : ndarray) (i : nat) : res ndarray :=
  match shape t with
  | [B; H; W; C] =>
      if (B =? 0) || (C <=? i) then Raise IndexError
      else Ok {| shape := [H; W]; data := channel_data H W C (data t) i |}
  | _ :: _ :: _ :: _ :: _ :: _ => Unmodelled
  | _ => Raise IndexError
  end.

(** [np.zeros_like(a)] *)
Definition zeros_like (a : ndarray) : ndarray :=
  {| shape := shape a; data := repeat zero (size_of (shape a)) |}.

(** *** The store of arrays

    Python variables hold references.  A reference is a position in the
    store; allocation appends. *)

Definition loc : Type := nat.
Definition heap : Type := list ndarray.
Definition deref (l : loc) : M heap ndarray :=
  fun h =>
    match nth_error h l with
    | Some a => (Ok a, h)
    | None => (Unmodelled, h)
    end.

Definition alloc (a : ndarray) : M heap loc :=
  fun h => (Ok (length h), h ++ [a]).

Definition assign (l : loc) (a : ndarray) : M heap unit :=
  fun h =>
    if l <? length h then (Ok tt, update l a h) else (Unmodelled, h).

(** [a += b] for arrays of one shape: the buffer of [a] is overwritten in
    place. *)
Definition iadd (l : loc) (b : ndarray) : M heap unit :=
  a <- deref l ;;
  if shape_eqb (shape a) (shape b)
  then assign l {| shape := shape a; data := map2 add (data a) (data b) |}
  else lift Unmodelled.

(** ** [postprocess]

    [preds] and [cams] are references to the two arrays returned by
    [Model.predict].  The views [preds[0]] and [cams[0, :, :, i]] are read
    from the store where they are used; the index array [idxes] is a
    temporary that nothing writes to. *)

(** [np.argsort(preds[0])[-top_k:]] *)
Definition top_indices (p : ndarray) (top_k : Z) : res (list nat) :=
  res_bind (getitem0 p) (fun row =>
  res_bind (np_argsort row) (fun sorted =>
  Ok (slice_from (- top_k) sorted))).

(** [class_activation_map += cams[0, :, :, i]], the body of the loop. *)
Definition loop_body (cams class_activation_map : loc) (i : nat) : M heap unit :=
  t <- deref cams ;;
  ch <- lift (channel t i) ;;
  iadd class_activation_map ch.

Definition postprocess (preds cams : loc) (top_k : Z) : M heap loc :=
  p <- deref preds ;;
  idxes <- lift (top_indices p top_k) ;;
  t <- deref cams ;;
  ch0 <- lift (channel t 0) ;;
  class_activation_map <- alloc (zeros_like ch0) ;;
  for_each idxes (loop_body cams class_activation_map) ;;;
  ret class_activation_map.

(** Element [a[h, w]] of a two-dimensional array and [t[b, h, w, c]] of a
    four-dimensional one. *)
Definition getitem2 (a : ndarray) (h w : nat) : A :=
  match shape a with
  | [_; W] => nth (h * W + w) (data a) zero
  | _ => zero
  end.

Definition getitem4 (t : ndarray) (b h w c : nat) : A :=
  match shape t with
  | [_; H; W; C] => nth (((b * H + h) * W + w) * C + c) (data t) zero
  | _ => zero
  end.

(** The sum of [t[0, h, w, i]] over the indices [i] of [idxes], taken from
    left to right and started at zero, as the loop of [postprocess] adds. *)
Definition pointwise_sum (t : ndarray) (idxes : list nat) (h w : nat) : A :=
  fold_left add (map (getitem4 t 0 h w) idxes) zero.

(** The array that a successful call leaves in the new cell. *)
Definition summed (t : ndarray) (H W C : nat) (idxes : list nat) : ndarray :=
  {| shape := [H; W];
     data := fold_left (map2 add)
               (map (channel_data H W C (data t)) idxes)
               (repeat zero (size_of [H; W])) |}.

(** The words of the specification: [idxes] holds the indices of the [k]
    largest entries of [row] (all of them when [row] has fewer than [k]). *)
Definition is_top_k (row : list A) (k : nat) (idxes : list nat) : Prop :=
  NoDup idxes /\
  length idxes = Nat.min k (length row) /\
  (forall i, In i idxes -> i < length row) /\
  (forall i j, In i idxes -> j < length row -> ~ In j idxes ->
     leb (key row j) (key row i) = true).

(** One stable instance of [np.argsort]: insertion of the indices from the
    last to the first, each before the indices whose key is not smaller. *)
Fixpoint insert_index (row : list A) (i : nat) (sorted : list nat)
  : list nat :=
  match sorted with
  | [] => [i]
  | j :: rest =>
      if leb (key row i) (key row j) then i :: j :: rest
      else j :: insert_index row i rest
  end.

Definition stable_argsort (row : list A) : list nat :=
  fold_right (insert_index row) [] (seq 0 (length row)).

End Numpy.

Arguments mk_ndarray {A} shape data.
Arguments shape {A} n.
Arguments data {A} n.
Arguments getitem0 {A} a.
Arguments row0 {A} a.
Arguments well_formed {A} a.
Arguments key {A} zero row i.
Arguments is_argsort {A} zero leb row idx.
Arguments np_argsort {A} argsort a.
Arguments channel_data {A} zero H W C d i.
Arguments channel {A} zero t i.
Arguments zeros_like {A} zero a.
Arguments deref {A} l _.
Arguments alloc {A} a _.
Arguments assign {A} l a _.
Arguments iadd {A} add l b _.
Arguments top_indices {A} argsort p top_k.
Arguments loop_body {A} zero add cams class_activation_map i _.
Arguments postprocess {A} zero add argsort preds cams top_k _.
Arguments getitem2 {A} zero a h w.
Arguments getitem4 {A} zero t b h w c.
Arguments pointwise_sum {A} zero add t idxes h w.
Arguments summed {A} zero add t H W C idxes.
Arguments is_top_k {A} zero leb row k idxes.
Arguments insert_index {A} zero leb row i sorted.
Arguments stable_argsort {A} zero leb row.


(** ** numpy, cv2: shapes of the image operations *)

Section Images.

Variable A : Type.

(** [a[:, :, ::-1]]: the last axis of a three-dimensional array reversed. *)
Definition reverse_channels (a : ndarray A) : res (ndarray A) :=
  match shape a with
  | [H; W; C] =>
      Ok {| shape := [H; W; C];
            data := flat_map (fun p => rev (firstn C (skipn (p * C) (data a))))
                             (seq 0 (H * W)) |}
  | _ :: _ :: _ :: _ :: _ => Unmodelled
  | _ => Raise IndexError
  end.

(** [np.expand_dims(a, axis=0)] *)
Definition expand_dims0 (a : ndarray A) : ndarray A :=
  {| shape := 1 :: shape a; data := data a |}.

(** [cv2.resize(src, dsize)] with [dsize = (width, height)]: the result has
    [height] rows and [width] columns, and the channels of [src].  The
    interpolated values are given by [interpolate]; OpenCV rejects an empty
    source and an empty size. *)
Definition cv2_resize (interpolate : ndarray A -> nat -> nat -> list A)
           (src : ndarray A) (dsize : nat * nat) : res (ndarray A) :=
  let (width, height) := dsize in
  match shape src with
  | [H; W] =>
      if (H =? 0) || (W =? 0) || (width =? 0) || (height =? 0)
      then Raise cv2_error
      else Ok {| shape := [height; width];
                 data := interpolate src width height |}
  | [H; W; C] =>
      if (H =? 0) || (W =? 0) || (width =? 0) || (height =? 0)
      then Raise cv2_error
      else if 2 <=? C
           then Ok {| shape := [height; width; C];
                      data := interpolate src width height |}
           else Unmodelled
  | _ => Unmodelled
  end.

End Images.

Arguments reverse_channels {A} a.
Arguments expand_dims0 {A} a.
Arguments cv2_resize {A} interpolate src dsize.

(** ** Keras: layers, static shapes and weights

    The Keras package is the library that the script drives.  A symbolic
    tensor is known by the layer that produces it and by its static shape,
    written without the batch axis. *)

Definition N_CLASSES : nat := 1000.

Inductive network : Type :=
| ResNet50
| InceptionResNetV2
| NASNetLarge.

Record tensor : Type := mk_tensor {
  producer : string;
  static_shape : list nat
}.

Inductive layer_config : Type :=
| Pretrained
| UpSampling2D_config (size : nat * nat) (interpolation : string)
| Conv2D_config (filters : nat) (kernel_size : nat * nat).

Fixpoint unique (names : list string) : bool :=
  match names with
  | [] => true
  | x :: rest => negb (existsb (String.eqb x) rest) && unique rest
  end.

(** [l[i]] on a Python list or tuple. *)
Definition getitem {X : Type} (l : list X) (i : nat) : res X :=
  match nth_error l i with
  | Some x => Ok x
  | None => Raise IndexError
  end.

Section Keras.

Variable A : Type.
Variable zero : A.

Record layer : Type := mk_layer {
  name : string;
  config : layer_config;
  output : tensor;
  weights : list (ndarray A)
}.

Record keras_model : Type := mk_model {
  input : tensor;
  outputs : list tensor;
  layers : list layer
}.

(** Modelled from the spec: [Model.get_layer] of the Keras package, which is
    not among the sources; the layer of that name, [ValueError] when there
    is none. *)
Definition get_layer (m : keras_model) (nm : string) : res layer :=
  match find (fun l => String.eqb (name l) nm) (layers m) with
  | Some l => Ok l
  | None => Raise ValueError
  end.

(** Modelled from the spec: [Model.output] of the Keras package, for a
    network with one output such as the three pretrained classifiers. *)
Definition model_output (m : keras_model) : res tensor :=
  match outputs m with
  | [o] => Ok o
  | _ => Unmodelled
  end.

(** [a.reshape(1, 1, -1, n)]: the buffer is kept, the third dimension is
    inferred from the number of elements, which [n] must divide. *)
Definition reshape_1_1_infer (a : ndarray A) (n : nat) : res (ndarray A) :=
  let size := size_of (shape a) in
  if (n =? 0) || negb (size mod n =? 0) then Raise ValueError
  else Ok {| shape := [1; 1; size / n; n]; data := data a |}.

(** Modelled from the spec: the layer [UpSampling2D(size, interpolation)] of
    the Keras package applied to a tensor; it upsamples the feature map,
    multiplying its rows and columns by the two factors of [size] and
    keeping the channels.  Keras names the layer itself. *)
Definition UpSampling2D (size : nat * nat) (interpolation : string)
           (x : tensor) : res layer :=
  if negb (String.eqb interpolation "nearest" ||
           String.eqb interpolation "bilinear")
  then Raise ValueError
  else
    match static_shape x with
    | [h; w; c] =>
        Ok {| name := "up_sampling2d_1";
              config := UpSampling2D_config size interpolation;
              output := {| producer := "up_sampling2d_1";
                           static_shape := [fst size * h; snd size * w; c] |};
              weights := [] |}
    | _ => Raise ValueError
    end.

(** Modelled from the spec: the layer [Conv2D(filters, kernel_size, name)]
    of the Keras package applied to a tensor, with the default stride 1 and
    no padding.  Its weights are a kernel of shape
    [(k1, k2, channels, filters)], initialised by [initializer], and a zero
    bias of shape [(filters,)]. *)
Definition Conv2D (initializer : list nat -> list A)
           (filters : nat) (kernel_size : nat * nat) (nm : string)
           (x : tensor) : res layer :=
  match static_shape x with
  | [h; w; c] =>
      let kernel_shape := [fst kernel_size; snd kernel_size; c; filters] in
      Ok {| name := nm;
            config := Conv2D_config filters kernel_size;
            output := {| producer := nm;
                         static_shape := [h + 1 - fst kernel_size;
                                          w + 1 - snd kernel_size;
                                          filters] |};
            weights := [ {| shape := kernel_shape;
                            data := initializer kernel_shape |};
                         {| shape := [filters];
                            data := repeat zero filters |} ] |}
  | _ => Raise ValueError
  end.

(** Modelled from the spec: the constructor [Model(inputs, outputs)] of the
    Keras package.  Keras collects the layers that lead to the outputs,
    here given as [ls], and rejects two layers of one name. *)
Definition Model (inputs : tensor) (outs : list tensor) (ls : list layer)
  : res keras_model :=
  if unique (map name ls)
  then Ok {| input := inputs; outputs := outs; layers := ls |}
  else Raise ValueError.

Definition same_shapes (ws vs : list (ndarray A)) : bool :=
  (length ws =? length vs) &&
  forallb (fun wv => shape_eqb (shape (fst wv)) (shape (snd wv)))
          (combine ws vs).

(** Modelled from the spec: [layer.set_weights(ws)] of the Keras package,
    on the layer named [nm] of [m]: the layer's arrays are replaced by [ws],
    which must be as many and of the same shapes. *)
Definition set_weights (m : keras_model) (nm : string)
           (ws : list (ndarray A)) : res keras_model :=
  res_bind (get_layer m nm) (fun l =>
  if same_shapes (weights l) ws
  then Ok {| input := input m;
             outputs := outputs m;
             layers := map (fun l' =>
                              if String.eqb (name l') nm
                              then {| name := name l';
                                      config := config l';
                                      output := output l';
                                      weights := ws |}
                              else l')
                           (layers m) |}
  else Raise ValueError).

(** *** What the script takes from its libraries *)

Record env : Type := mk_env {
  (** the constructors of [keras.applications], with pretrained weights *)
  applications : network -> list nat -> res keras_model;
  (** the default kernel initialiser of [Conv2D] *)
  glorot_uniform : list nat -> list A;
  (** the value of a symbolic tensor of a model on a batch *)
  forward : keras_model -> tensor -> ndarray A -> ndarray A;
  resnet_preprocess : ndarray A -> ndarray A;
  inception_resnet_preprocess : ndarray A -> ndarray A;
  nasnet_preprocess : ndarray A -> ndarray A;
  (** [cv2.imread], [None] for a file that cannot be read *)
  imread : string -> option (ndarray A);
  (** the values computed by [cv2.resize] *)
  interpolate : ndarray A -> nat -> nat -> list A
}.

(** Modelled from the spec: [Model.predict] of the Keras package; the batch
    must have the shape of the model's input, and there is one array per
    output, in the order of the outputs. *)
Definition Model_predict (E : env) (m : keras_model) (x : ndarray A)
  : res (list (ndarray A)) :=
  match shape x with
  | _ :: dims =>
      if shape_eqb dims (static_shape (input m))
      then Ok (map (fun o => forward E m o x) (outputs m))
      else Raise ValueError
  | [] => Raise ValueError
  end.

(** *** The state of the main program *)

Record world : Type := mk_world {
  store : heap A;
  (** the pretrained networks built so far, with their input shapes *)
  instantiated : list (network * list nat);
  (** the images drawn by [plt.imshow], with their colour maps *)
  axes : list (ndarray A * option string);
  (** [plt.show()] was called *)
  shown : bool
}.

Definition in_store {X : Type} (m : M (heap A) X) : M world X :=
  fun w =>
    let (r, h) := m (store w) in
    (r, {| store := h; instantiated := instantiated w;
           axes := axes w; shown := shown w |}).

(** [model_class(input_shape=...)] *)
Definition instantiate (E : env) (model_class : network)
           (input_shape : list nat) : M world keras_model :=
  fun w =>
    (applications E model_class input_shape,
     {| store := store w;
        instantiated := instantiated w ++ [(model_class, input_shape)];
        axes := axes w; shown := shown w |}).

Definition plt_imshow (img : ndarray A) (cmap : option string)
  : M world unit :=
  fun w =>
    (Ok tt,
     {| store := store w; instantiated := instantiated w;
        axes := axes w ++ [(img, cmap)]; shown := shown w |}).

Definition plt_show : M world unit :=
  fun w =>
    (Ok tt,
     {| store := store w; instantiated := instantiated w;
        axes := axes w; shown := true |}).

(** ** The backends *)

Record _Backend : Type := mk_Backend {
  input_size : nat;
  preprocess_fn : ndarray A -> ndarray A;
  cam_model : keras_model
}.

Definition _create_cam_model (E : env) (self_input_size : nat)
           (model_class : network) (last_conv_layer pred_layer : string)
  : M world keras_model :=
  model <- instantiate E model_class
             [self_input_size; self_input_size; 3] ;;
  pred <- lift (get_layer model pred_layer) ;;
  let final_params := weights pred in
  w0 <- lift (getitem final_params 0) ;;
  kernel <- lift (reshape_1_1_infer w0 N_CLASSES) ;;
  bias <- lift (getitem final_params 1) ;;
  let final_params := [kernel; bias] in
  conv <- lift (get_layer model last_conv_layer) ;;
  let last_conv_output := output conv in
  up <- lift (UpSampling2D (32, 32) "bilinear" last_conv_output) ;;
  predictions_2 <- lift (Conv2D (glorot_uniform E) N_CLASSES (1, 1)
                                "predictions_2" (output up)) ;;
  let x := output predictions_2 in
  model_out <- lift (model_output model) ;;
  cam_model <- lift (Model (input model) [model_out; x]
                           (layers model ++ [up; predictions_2])) ;;
  lift (set_weights cam_model "predictions_2" final_params).

Definition _Backend__init__ (E : env) (input_size : nat)
           (last_conv_layer pred_layer : string)
           (preprocess_fn : ndarray A -> ndarray A) (model_class : network)
  : M world _Backend :=
  cam_model <- _create_cam_model E input_size model_class
                 last_conv_layer pred_layer ;;
  ret {| input_size := input_size;
         preprocess_fn := preprocess_fn;
         cam_model := cam_model |}.

Definition load_img (E : env) (self : _Backend) (fname : string)
  : res (ndarray A * ndarray A * (nat * nat)) :=
  match imread E fname with
  | None => Raise TypeError
  | Some raw =>
      res_bind (reverse_channels raw) (fun original_img =>
      let original_size :=
        (nth 1 (shape original_img) 0, nth 0 (shape original_img) 0) in
      res_bind (cv2_resize (interpolate E) original_img
                           (input_size self, input_size self)) (fun img =>
      let imgs := expand_dims0 (preprocess_fn self img) in
      Ok (imgs, original_img, original_size)))
  end.

Definition predict (E : env) (self : _Backend) (imgs : ndarray A)
  : res (ndarray A * ndarray A) :=
  res_bind (Model_predict E (cam_model self) imgs) (fun results =>
  match results with
  | [preds; cams] => Ok (preds, cams)
  | [_] => Unmodelled
  | _ => Raise ValueError
  end).

Definition BackendInceptionResNetV2 (E : env) : M world _Backend :=
  _Backend__init__ E 299 "conv_7b_ac" "predictions"
                   (inception_resnet_preprocess E) InceptionResNetV2.

Definition BackendResNet50 (E : env) : M world _Backend :=
  _Backend__init__ E 224 "activation_49" "fc1000"
                   (resnet_preprocess E) ResNet50.

Definition BackendNASNetLarge (E : env) : M world _Backend :=
  _Backend__init__ E 331 "activation_260" "predictions"
                   (nasnet_preprocess E) NASNetLarge.

(** ** The main program *)

(** The default of the [base_network] argument of the parser. *)
Definition base_network_default : string := "resnet50".

(** Step 1: create the keras-cam model. *)
Definition select_backend (E : env) (base_network : string)
  : M world _Backend :=
  if String.eqb base_network "resnet" then BackendResNet50 E
  else if String.eqb base_network "nasnet" then BackendNASNetLarge E
  else if String.eqb base_network "inception"
       then BackendInceptionResNetV2 E
       else lift (Raise ValueError).

Variable add : A -> A -> A.
Variable argsort : list A -> list nat.

(** Steps 2 to 5, for the arguments [input_image_file] and [base_network]
    of the command line. *)
Definition main (E : env) (input_image_file base_network : string)
  : M world unit :=
  cam_builder <- select_backend E base_network ;;
  loaded <- lift (load_img E cam_builder input_image_file) ;;
  let '(imgs, original_img, original_size) := loaded in
  results <- lift (predict E cam_builder imgs) ;;
  let '(preds_array, cams_array) := results in
  preds <- in_store (alloc preds_array) ;;
  cams <- in_store (alloc cams_array) ;;
  cam <- in_store (postprocess zero add argsort preds cams 1) ;;
  class_activation_map <- in_store (deref cam) ;;
  plt_imshow original_img None ;;;
  overlay <- lift (cv2_resize (interpolate E) class_activation_map
                              original_size) ;;
  plt_imshow overlay (Some "jet"%string) ;;;
  plt_show.

End Keras.

Arguments mk_layer {A} name config output weights.
Arguments name {A} l.
Arguments config {A} l.
Arguments output {A} l.
Arguments weights {A} l.
Arguments mk_model {A} input outputs layers.
Arguments input {A} k.
Arguments outputs {A} k.
Arguments layers {A} k.
Arguments get_layer {A} m nm.
Arguments model_output {A} m.
Arguments reshape_1_1_infer {A} a n.
Arguments UpSampling2D {A} size interpolation x.
Arguments Conv2D {A} zero initializer filters kernel_size nm x.
Arguments Model {A} inputs outs ls.
Arguments same_shapes {A} ws vs.
Arguments set_weights {A} m nm ws.
Arguments mk_env {A}.
Arguments applications {A} e.
Arguments glorot_uniform {A} e.
Arguments forward {A} e.
Arguments resnet_preprocess {A} e.
Arguments inception_resnet_preprocess {A} e.
Arguments nasnet_preprocess {A} e.
Arguments imread {A} e.
Arguments interpolate {A} e.
Arguments Model_predict {A} E m x.
Arguments mk_world {A} store instantiated axes shown.
Arguments store {A} w.
Arguments instantiated {A} w.
Arguments axes {A} w.
Arguments shown {A} w.
Arguments in_store {A X} m _.
Arguments instantiate {A} E model_class input_shape _.
Arguments plt_imshow {A} img cmap _.
Arguments plt_show {A} _.
Arguments mk_Backend {A} input_size preprocess_fn cam_model.
Arguments input_size {A} _.
Arguments preprocess_fn {A} _.
Arguments cam_model {A} _.
Arguments _create_cam_model {A} zero E self_input_size model_class
  last_conv_layer pred_layer _.
Arguments _Backend__init__ {A} zero E input_size last_conv_layer pred_layer
  preprocess_fn model_class _.
Arguments load_img {A} E self fname.
Arguments predict {A} E self imgs.
Arguments BackendInceptionResNetV2 {A} zero E _.
Arguments BackendResNet50 {A} zero E _.
Arguments BackendNASNetLarge {A} zero E _.
Arguments select_backend {A} zero E base_network _.
Arguments main {A} zero add argsort E input_image_file base_network _.

(** The constructor of the backend class that wraps a network, and the
    input size that the class passes on. *)
Definition backend_of {A : Type} (zero : A) (E : env A) (n : network)
  : M (world A) (_Backend A) :=
  match n with
  | ResNet50 => BackendResNet50 zero E
  | InceptionResNetV2 => BackendInceptionResNetV2 zero E
  | NASNetLarge => BackendNASNetLarge zero E
  end.

Definition input_size_of (n : network) : nat :=
  match n with
  | ResNet50 => 224
  | InceptionResNetV2 => 299
  | NASNetLarge => 331
  end.

(** The rows and columns of the second output of a model, the grafted
    class activation maps. *)
Definition cam_spatial_size {A : Type} (m : keras_model A)
  : option (nat * nat) :=
  match outputs m with
  | [_; x] =>
      match static_shape x with
      | [h; w; _] => Some (h, w)
      | _ => None
      end
  | _ => None
  end.

Definition last_conv_layer_of (n : network) : string :=
  match n with
  | ResNet50 => "activation_49"
  | InceptionResNetV2 => "conv_7b_ac"
  | NASNetLarge => "activation_260"
  end.

Definition pred_layer_of (n : network) : string :=
  match n with
  | ResNet50 => "fc1000"
  | InceptionResNetV2 => "predictions"
  | NASNetLarge => "predictions"
  end.

Definition preprocess_of {A : Type} (E : env A) (n : network)
  : ndarray A -> ndarray A :=
  match n with
  | ResNet50 => resnet_preprocess E
  | InceptionResNetV2 => inception_resnet_preprocess E
  | NASNetLarge => nasnet_preprocess E
  end.

(** The world after one more network was built. *)
Definition built {A : Type} (w : world A) (n : network) (size : nat)
  : world A :=
  {| store := store w;
     instantiated := instantiated w ++ [(n, [size; size; 3])];
     axes := axes w;
     shown := shown w |}.

(** The two grafted layers and the two-output model, for a last feature map
    of static shape [(h, w, D)], a classification kernel [W] and bias [b]. *)
Definition grafted_upsampling {A : Type} (h w D : nat) : layer A :=
  {| name := "up_sampling2d_1";
     config := UpSampling2D_config (32, 32) "bilinear";
     output := {| producer := "up_sampling2d_1";
                  static_shape := [32 * h; 32 * w; D] |};
     weights := [] |}.

Definition grafted_conv {A : Type} (h w D : nat) (W b : ndarray A)
  : layer A :=
  {| name := "predictions_2";
     config := Conv2D_config N_CLASSES (1, 1);
     output := {| producer := "predictions_2";
                  static_shape := [32 * h; 32 * w; N_CLASSES] |};
     weights := [ {| shape := [1; 1; D; N_CLASSES]; data := data W |}; b ] |}.

Definition grafted_model {A : Type} (model : keras_model A) (out : tensor)
           (h w D : nat) (W b : ndarray A) : keras_model A :=
  {| input := input model;
     outputs := [out; output (grafted_conv h w D W b)];
     layers := layers model
               ++ [grafted_upsampling h w D; grafted_conv h w D W b] |}.

(** ** A small stand-in for the libraries, scalars in [Z]

    Each pretrained network is cut down to its last feature map and its
    classification layer.  The feature maps have the spatial sizes of the
    real networks on their default inputs (7, 8 and 11) and two channels;
    the forward pass returns a fixed [1 x 3] prediction and a fixed
    [1 x 1 x 2 x 3] activation tensor. *)
Module Demo.

Definition dense (nm : string) : layer Z :=
  {| name := nm;
     config := Pretrained;
     output := {| producer := nm; static_shape := [N_CLASSES] |};
     weights := [ {| shape := [2; N_CLASSES];
                     data := repeat 1%Z (2 * N_CLASSES) |};
                  {| shape := [N_CLASSES];
                     data := repeat 2%Z N_CLASSES |} ] |}.

Definition feature_map (nm : string) (side : nat) : layer Z :=
  {| name := nm;
     config := Pretrained;
     output := {| producer := nm; static_shape := [side; side; 2] |};
     weights := [] |}.

Definition feature_map_side (n : network) : nat :=
  match n with
  | ResNet50 => 7
  | InceptionResNetV2 => 8
  | NASNetLarge => 11
  end.

Definition network_model (n : network) (input_shape : list nat)
  : keras_model Z :=
  {| input := {| producer := "input_1"; static_shape := input_shape |};
     outputs := [output (dense (pred_layer_of n))];
     layers := [feature_map (last_conv_layer_of n) (feature_map_side n);
                dense (pred_layer_of n)] |}.

Definition pretrained (n : network) (input_shape : list nat)
  : res (keras_model Z) :=
  Ok (network_model n input_shape).

Definition preds_array : ndarray Z := mk_ndarray [1; 3] [5; 9; 7]%Z.

Definition cams_array : ndarray Z :=
  mk_ndarray [1; 1; 2; 3] [1; 2; 3; 10; 20; 30]%Z.

Definition dog : ndarray Z :=
  mk_ndarray [2; 3; 3]
             [1; 2; 3; 4; 5; 6; 7; 8; 9; 10; 11; 12; 13; 14; 15; 16; 17; 18]%Z.

Definition E : env Z :=
  {| applications := pretrained;
     glorot_uniform := fun sh => repeat 0%Z (size_of sh);
     forward := fun _ o _ =>
                  if String.eqb (producer o) "predictions_2"
                  then cams_array else preds_array;
     resnet_preprocess := fun x => x;
     inception_resnet_preprocess := fun x => x;
     nasnet_preprocess := fun x => x;
     imread := fun f => if String.eqb f "dog.png" then Some dog else None;
     interpolate := fun src width height =>
                      repeat 0%Z (size_of (height :: width
                                             :: tl (tl (shape src)))) |}.

Definition w0 : world Z :=
  {| store := []; instantiated := []; axes := []; shown := false |}.

Definition argsort : list Z -> list nat := stable_argsort 0%Z Z.leb.

(** The backend that the class of a network constructs here. *)
Definition backend (n : network) : _Backend Z :=
  {| input_size := input_size_of n;
     preprocess_fn := fun x => x;
     cam_model :=
       grafted_model
         (network_model n [input_size_of n; input_size_of n; 3])
         (output (dense (pred_layer_of n)))
         (feature_map_side n) (feature_map_side n) 2
         {| shape := [2; N_CLASSES]; data := repeat 1%Z (2 * N_CLASSES) |}
         {| shape := [N_CLASSES]; data := repeat 2%Z N_CLASSES |} |}.

(** A batch of one blank image for ResNet50. *)
Definition blank : ndarray Z :=
  {| shape := [1; 224; 224; 3];
     data := repeat 0%Z (size_of [1; 224; 224; 3]) |}.

(** The world at the end of the main program on ["dog.png"] and
    ["resnet"]. *)
Definition w_end : world Z :=
  snd (main 0%Z Z.add argsort E "dog.png" "resnet" w0).

End Demo.

(** ** Further operations: image elements *)

(** Element [a[y, x, c]] of a three-dimensional array. *)
Definition getitem3 {A : Type} (zero : A) (a : ndarray A) (y x c : nat) : A :=
  match shape a with
  | [_; W; C] => nth ((y * W + x) * C + c) (data a) zero
  | _ => zero
  end.

(** * Properties *)

(** ** Lists *)

Section ListFacts.

Context {X : Type}.

Lemma length_update (n : nat) (x : X) (l : list X) :
  length (update n x l) = length l.
Proof.
  revert n; induction l as [|y t IH]; intros [|n]; simpl; auto.
Qed.

Lemma nth_error_update_eq (n : nat) (x : X) (l : list X) :
  n < length l -> nth_error (update n x l) n = Some x.
Proof.
  revert n; induction l as [|y t IH]; intros [|n]; simpl; intros Hn;
    try lia; auto.
  apply IH; lia.
Qed.

Lemma nth_error_update_ne (n m : nat) (x : X) (l : list X) :
  m <> n -> nth_error (update n x l) m = nth_error l m.
Proof.
  revert n m; induction l as [|y t IH]; intros [|n] [|m]; simpl; intros Hn;
    try congruence; auto.
Qed.

Lemma update_update (n : nat) (x y : X) (l : list X) :
  update n x (update n y l) = update n x l.
Proof.
  revert n; induction l as [|z t IH]; intros [|n]; simpl; auto.
  now rewrite IH.
Qed.

Lemma update_app_last (l : list X) (x y : X) :
  update (length l) x (l ++ [y]) = l ++ [x].
Proof.
  induction l as [|z t IH]; simpl; auto. now rewrite IH.
Qed.

Lemma firstn_update (n : nat) (x : X) (l : list X) :
  firstn n (update n x l) = firstn n l.
Proof.
  revert n; induction l as [|z t IH]; intros [|n]; simpl; auto.
  now rewrite IH.
Qed.

Lemma length_map2 (f : X -> X -> X) (xs ys : list X) :
  length ys = length xs -> length (map2 f xs ys) = length xs.
Proof.
  revert ys; induction xs as [|a xs IH]; intros [|b ys]; simpl; intros E;
    try discriminate; auto.
Qed.

Lemma nth_map2 (f : X -> X -> X) (d : X) (xs ys : list X) (p : nat) :
  length ys = length xs -> p < length xs ->
  nth p (map2 f xs ys) d = f (nth p xs d) (nth p ys d).
Proof.
  revert ys p; induction xs as [|a xs IH]; intros [|b ys] [|p]; simpl;
    intros E Hp; try discriminate; try lia; auto.
  apply IH; lia.
Qed.

End ListFacts.

(** ** The store and the loop of [postprocess] *)

Section PostprocessFacts.

Context {A : Type}.
Variable zero : A.
Variable add : A -> A -> A.
Variable leb : A -> A -> bool.
Variable argsort : list A -> list nat.

Lemma update_same (n : nat) (x : ndarray A) (h : heap A) :
  nth_error h n = Some x -> update n x h = h.
Proof.
  revert n; induction h as [|y t IH]; intros [|n]; simpl; intros E;
    try discriminate; auto.
  - now inversion E.
  - now rewrite IH.
Qed.

Lemma shape_eqb_refl (s : list nat) : shape_eqb s s = true.
Proof.
  unfold shape_eqb. destruct (list_eq_dec Nat.eq_dec s s); congruence.
Qed.

Lemma length_channel_data (H W C : nat) (d : list A) (i : nat) :
  length (channel_data zero H W C d i) = H * W.
Proof.
  unfold channel_data. now rewrite length_map, length_seq.
Qed.

Lemma channel_ok (t : ndarray A) (B H W C i : nat) :
  shape t = [S B; H; W; C] -> i < C ->
  channel zero t i =
  Ok {| shape := [H; W]; data := channel_data zero H W C (data t) i |}.
Proof.
  intros Hs Hi. unfold channel. rewrite Hs. simpl.
  destruct (Nat.leb_spec C i); [lia | reflexivity].
Qed.

Lemma channel_out_of_range (t : ndarray A) (B H W C i : nat) :
  shape t = [B; H; W; C] -> C <= i -> channel zero t i = Raise IndexError.
Proof.
  intros Hs Hi. unfold channel. rewrite Hs.
  destruct (Nat.leb_spec C i); [|lia]. now rewrite orb_true_r.
Qed.

Lemma loop_body_ok (cams cam : loc) (t : ndarray A) (B H W C : nat)
      (acc : list A) (i : nat) (h : heap A) :
  shape t = [S B; H; W; C] -> i < C -> cam <> cams ->
  nth_error h cams = Some t ->
  nth_error h cam = Some {| shape := [H; W]; data := acc |} ->
  loop_body zero add cams cam i h =
  (Ok tt,
   update cam {| shape := [H; W];
                 data := map2 add acc (channel_data zero H W C (data t) i) |}
          h).
Proof.
  intros Hs Hi Hne Hc Ha.
  unfold loop_body, bind, deref, lift, iadd, assign.
  rewrite Hc, (channel_ok t B H W C i Hs Hi).
  unfold bind, deref. rewrite Ha. simpl. rewrite shape_eqb_refl.
  assert (Hlt : cam < length h) by (apply nth_error_Some; congruence).
  apply Nat.ltb_lt in Hlt. now rewrite Hlt.
Qed.

Lemma for_each_iadd (cams cam : loc) (t : ndarray A) (B H W C : nat) :
  shape t = [S B; H; W; C] -> cam <> cams ->
  forall (idxes : list nat) (acc : list A) (h : heap A),
    Forall (fun i => i < C) idxes ->
    nth_error h cams = Some t ->
    nth_error h cam = Some {| shape := [H; W]; data := acc |} ->
    for_each idxes (loop_body zero add cams cam) h =
    (Ok tt,
     update cam
       {| shape := [H; W];
          data := fold_left (map2 add)
                    (map (channel_data zero H W C (data t)) idxes) acc |}
       h).
Proof.
  intros Hs Hne idxes.
  induction idxes as [|i idxes IH]; intros acc h Hall Hc Ha.
  - simpl. unfold ret. now rewrite (update_same _ _ _ Ha).
  - inversion Hall as [|? ? Hi Hall']; subst.
    simpl. unfold bind at 1.
    rewrite (loop_body_ok cams cam t B H W C acc i h Hs Hi Hne Hc Ha).
    assert (Hlt : cam < length h) by (apply nth_error_Some; congruence).
    rewrite IH with (acc := map2 add acc (channel_data zero H W C (data t) i));
      auto.
    + now rewrite update_update.
    + now rewrite nth_error_update_ne by auto.
    + now apply nth_error_update_eq.
Qed.

Lemma channel_inv (t ch : ndarray A) (i : nat) :
  channel zero t i = Ok ch ->
  exists B H W C,
    shape t = [S B; H; W; C] /\ i < C /\
    ch = {| shape := [H; W]; data := channel_data zero H W C (data t) i |}.
Proof.
  unfold channel. intros E.
  destruct (shape t) as [|B [|H [|W [|C [|? ?]]]]] eqn:Hs; try discriminate.
  destruct B as [|B]; simpl in E; try discriminate.
  destruct (Nat.leb_spec C i); try discriminate.
  exists B, H, W, C. inversion E. auto.
Qed.

(** The loop writes to the accumulator only. *)
Lemma loop_body_frame (cams cam i : nat) (h h' : heap A) (r : res unit) :
  loop_body zero add cams cam i h = (r, h') ->
  h' = h \/ exists a, h' = update cam a h.
Proof.
  unfold loop_body, bind, deref, lift, iadd, assign, bind, deref.
  destruct (nth_error h cams) as [t|]; [|intros E; inversion E; auto].
  destruct (channel zero t i) as [ch| |]; try (intros E; inversion E; auto).
  destruct (nth_error h cam) as [a|]; [|inversion E; auto].
  destruct (shape_eqb (shape a) (shape ch)); [|inversion E; auto].
  destruct (cam <? length h); inversion E; eauto.
Qed.

Lemma for_each_frame (cams cam : nat) (idxes : list nat) :
  forall (h h' : heap A) (r : res unit),
    for_each idxes (loop_body zero add cams cam) h = (r, h') ->
    h' = h \/ exists a, h' = update cam a h.
Proof.
  induction idxes as [|i idxes IH]; intros h h' r E.
  - inversion E; auto.
  - simpl in E. unfold bind in E.
    destruct (loop_body zero add cams cam i h) as [r1 h1] eqn:E1.
    apply loop_body_frame in E1.
    destruct r1 as [[]| |];
      try (inversion E; subst; exact E1).
    apply IH in E.
    destruct E1 as [->|[a ->]]; auto.
    destruct E as [->|[b ->]]; eauto.
    right. exists b. apply update_update.
Qed.

Lemma for_each_ok_inv (cams cam : loc) (t : ndarray A) (B H W C : nat) :
  shape t = [S B; H; W; C] -> cam <> cams ->
  forall (idxes : list nat) (acc : list A) (h h' : heap A),
    nth_error h cams = Some t ->
    nth_error h cam = Some {| shape := [H; W]; data := acc |} ->
    for_each idxes (loop_body zero add cams cam) h = (Ok tt, h') ->
    Forall (fun i => i < C) idxes.
Proof.
  intros Hs Hne idxes.
  induction idxes as [|i idxes IH]; intros acc h h' Hc Ha E; auto.
  simpl in E. unfold bind in E.
  destruct (Nat.lt_ge_cases i C) as [Hi|Hi].
  - rewrite (loop_body_ok cams cam t B H W C acc i h Hs Hi Hne Hc Ha)
      in E.
    assert (Hlt : cam < length h) by (apply nth_error_Some; congruence).
    constructor; auto.
    eapply IH; [| |exact E].
    + now rewrite nth_error_update_ne by auto.
    + now apply nth_error_update_eq.
  - exfalso. unfold loop_body, bind, deref, lift in E. rewrite Hc in E.
    rewrite (channel_out_of_range t (S B) H W C i Hs Hi) in E. discriminate.
Qed.

Lemma postprocess_run (h : heap A) (preds cams : loc) (top_k : Z)
      (p t : ndarray A) (idxes : list nat) (B H W C : nat) :
  nth_error h preds = Some p ->
  top_indices argsort p top_k = Ok idxes ->
  nth_error h cams = Some t ->
  shape t = [S B; H; W; C] ->
  0 < C ->
  Forall (fun i => i < C) idxes ->
  postprocess zero add argsort preds cams top_k h =
  (Ok (length h), h ++ [summed zero add t H W C idxes]).
Proof.
  intros Hp Hidx Hc Hs HC Hall.
  unfold postprocess, bind at 1, deref at 1. rewrite Hp.
  unfold bind at 1, lift at 1. rewrite Hidx.
  unfold bind at 1, deref at 1. rewrite Hc.
  unfold bind at 1, lift at 1. rewrite (channel_ok t B H W C 0 Hs HC).
  unfold bind at 1, alloc, zeros_like. simpl shape.
  unfold bind.
  assert (Hlt : cams < length h) by (apply nth_error_Some; congruence).
  rewrite (for_each_iadd cams (length h) t B H W C Hs) with
    (acc := repeat zero (size_of [H; W])).
  - unfold ret. f_equal. apply update_app_last.
  - lia.
  - exact Hall.
  - rewrite nth_error_app1; auto.
  - rewrite nth_error_app2, Nat.sub_diag; auto.
Qed.

Lemma postprocess_inv (h h' : heap A) (preds cams cam : loc) (top_k : Z) :
  postprocess zero add argsort preds cams top_k h = (Ok cam, h') ->
  exists p t idxes B H W C,
    nth_error h preds = Some p /\
    top_indices argsort p top_k = Ok idxes /\
    nth_error h cams = Some t /\
    shape t = [S B; H; W; C] /\
    0 < C /\
    Forall (fun i => i < C) idxes.
Proof.
  unfold postprocess, bind at 1, deref at 1.
  destruct (nth_error h preds) as [p|] eqn:Hp; [|discriminate].
  unfold bind at 1, lift at 1.
  destruct (top_indices argsort p top_k) as [idxes| |] eqn:Hidx;
    try discriminate.
  unfold bind at 1, deref at 1.
  destruct (nth_error h cams) as [t|] eqn:Hc; [|discriminate].
  unfold bind at 1, lift at 1.
  destruct (channel zero t 0) as [ch0| |] eqn:Hch; try discriminate.
  destruct (channel_inv _ _ _ Hch) as (B & H & W & C & Hs & HC & ->).
  unfold bind at 1, alloc, zeros_like. simpl shape.
  unfold bind.
  destruct (for_each idxes _ _) as [[[]| |] h1] eqn:E; try discriminate.
  intros _.
  exists p, t, idxes, B, H, W, C. repeat split; auto.
  assert (Hlt : cams < length h) by (apply nth_error_Some; congruence).
  eapply (for_each_ok_inv cams (length h) t B H W C Hs) with
    (acc := repeat zero (size_of [H; W])); [lia| | |exact E].
  - rewrite nth_error_app1; auto.
  - rewrite nth_error_app2, Nat.sub_diag; auto.
Qed.

Lemma postprocess_frame (h h' : heap A) (preds cams : loc) (top_k : Z)
      (r : res loc) :
  postprocess zero add argsort preds cams top_k h = (r, h') ->
  firstn (length h) h' = h.
Proof.
  unfold postprocess, bind at 1, deref at 1.
  destruct (nth_error h preds) as [p|];
    [|intros E; inversion E; apply firstn_all].
  unfold bind at 1, lift at 1.
  destruct (top_indices argsort p top_k) as [idxes| |];
    try (intros E; inversion E; apply firstn_all).
  unfold bind at 1, deref at 1.
  destruct (nth_error h cams) as [t|];
    [|intros E; inversion E; apply firstn_all].
  unfold bind at 1, lift at 1.
  destruct (channel zero t 0) as [ch0| |];
    try (intros E; inversion E; apply firstn_all).
  unfold bind at 1, alloc. unfold bind.
  destruct (for_each idxes _ _) as [r1 h1] eqn:E1.
  apply for_each_frame in E1.
  assert (Hpre : firstn (length h) h1 = h).
  { destruct E1 as [->|[a ->]].
    - now rewrite firstn_app, Nat.sub_diag, firstn_all, app_nil_r.
    - rewrite firstn_update.
      now rewrite firstn_app, Nat.sub_diag, firstn_all, app_nil_r. }
  destruct r1 as [[]| |]; intros E; inversion E; subst; exact Hpre.
Qed.

End PostprocessFacts.

(** ** What the accumulator holds *)

Section Sums.

Context {A : Type}.
Variable zero : A.
Variable add : A -> A -> A.

Lemma nth_fold_map2 (p n : nat) (ls : list (list A)) :
  Forall (fun l => length l = n) ls -> p < n ->
  forall init : list A,
    length init = n ->
    nth p (fold_left (map2 add) ls init) zero =
    fold_left add (map (fun l => nth p l zero) ls) (nth p init zero).
Proof.
  intros Hall Hp. induction Hall as [|l ls Hl Hall IH]; intros init Hi; auto.
  simpl. rewrite IH.
  - f_equal. apply nth_map2; lia.
  - rewrite length_map2; lia.
Qed.

Lemma nth_channel_data (t : ndarray A) (B H W C i y x : nat) :
  shape t = [B; H; W; C] -> y < H -> x < W ->
  nth (y * W + x) (channel_data zero H W C (data t) i) zero =
  getitem4 zero t 0 y x i.
Proof.
  intros Hs Hy Hx. unfold channel_data, getitem4. rewrite Hs.
  assert (Hp : y * W + x < H * W) by nia.
  rewrite (nth_indep _ zero (nth (0 * C + i) (data t) zero))
    by now rewrite length_map, length_seq.
  rewrite (map_nth (fun p => nth (p * C + i) (data t) zero)).
  rewrite seq_nth by exact Hp. reflexivity.
Qed.

Lemma getitem2_summed (t : ndarray A) (B H W C : nat) (idxes : list nat)
      (y x : nat) :
  shape t = [B; H; W; C] -> y < H -> x < W ->
  getitem2 zero (summed zero add t H W C idxes) y x =
  pointwise_sum zero add t idxes y x.
Proof.
  intros Hs Hy Hx. unfold getitem2, summed, pointwise_sum. simpl.
  assert (Hp : y * W + x < H * W) by nia.
  rewrite (nth_fold_map2 (y * W + x) (H * W)); auto.
  - rewrite nth_repeat, map_map. f_equal.
    apply map_ext. intros i. now apply (nth_channel_data t B).
  - apply Forall_forall. intros l Hl. apply in_map_iff in Hl.
    destruct Hl as (i & <- & _).
    unfold channel_data. now rewrite length_map, length_seq.
  - rewrite repeat_length. lia.
Qed.

End Sums.

(** ** Which indices are selected *)

Lemma slice_start_top (k : Z) (n : nat) :
  (1 <= k)%Z -> slice_start (- k) n = n - Z.to_nat k.
Proof.
  intros Hk. unfold slice_start.
  destruct (Z.ltb_spec (- k) 0); lia.
Qed.

Lemma slice_start_all (k : Z) (n : nat) :
  k = 0%Z \/ (Z.of_nat n <= k)%Z -> slice_start (- k) n = 0.
Proof.
  intros Hk. unfold slice_start.
  destruct (Z.ltb_spec (- k) 0); lia.
Qed.

Lemma StronglySorted_app_cross {X : Type} (R : X -> X -> Prop)
      (pre post : list X) :
  StronglySorted R (pre ++ post) ->
  forall a b, In a pre -> In b post -> R a b.
Proof.
  induction pre as [|c pre IH]; simpl; intros Hs a b Ha Hb; [easy|].
  apply StronglySorted_inv in Hs. destruct Hs as [Hs Hall].
  destruct Ha as [->|Ha]; [|now apply IH].
  rewrite Forall_forall in Hall. apply Hall, in_or_app. now right.
Qed.

Lemma StronglySorted_skipn {X : Type} (R : X -> X -> Prop) (n : nat) :
  forall l : list X, StronglySorted R l -> StronglySorted R (skipn n l).
Proof.
  induction n as [|n IH]; intros [|a l] Hs; simpl; auto.
  apply IH. now apply StronglySorted_inv in Hs.
Qed.

Section Selection.

Context {A : Type}.
Variable zero : A.
Variable leb : A -> A -> bool.

Lemma is_argsort_length (row : list A) (idx : list nat) :
  is_argsort zero leb row idx -> length idx = length row.
Proof.
  intros [Hperm _]. apply Permutation_length in Hperm.
  now rewrite length_seq in Hperm.
Qed.

Lemma is_argsort_in (row : list A) (idx : list nat) (i : nat) :
  is_argsort zero leb row idx -> (In i idx <-> i < length row).
Proof.
  intros [Hperm _]. split; intros Hi.
  - apply (Permutation_in _ Hperm), in_seq in Hi. lia.
  - apply (Permutation_in _ (Permutation_sym Hperm)), in_seq. lia.
Qed.

(** The last [k] positions of an argsort hold the [k] largest entries. *)
Lemma is_top_k_skipn (row : list A) (idx : list nat) (k : nat) :
  is_argsort zero leb row idx ->
  is_top_k zero leb row k (skipn (length row - k) idx).
Proof.
  intros Hidx. pose proof (is_argsort_length _ _ Hidx) as Hlen.
  pose proof Hidx as [Hperm Hsort].
  assert (Hnd : NoDup idx).
  { apply (Permutation_NoDup (Permutation_sym Hperm)), seq_NoDup. }
  rewrite <- (firstn_skipn (length row - k) idx) in Hnd, Hsort.
  repeat split.
  - now apply NoDup_app_remove_l in Hnd.
  - rewrite length_skipn. lia.
  - intros i Hi. apply (is_argsort_in _ _ i Hidx).
    rewrite <- (firstn_skipn (length row - k) idx). apply in_or_app. auto.
  - intros i j Hi Hj Hnot.
    apply (StronglySorted_app_cross _ _ _ Hsort); auto.
    apply (is_argsort_in _ _ j Hidx) in Hj.
    rewrite <- (firstn_skipn (length row - k) idx) in Hj.
    apply in_app_or in Hj. tauto.
Qed.

Variable argsort : list A -> list nat.

Lemma top_indices_ok (p : ndarray A) (r n : nat) (top_k : Z) :
  shape p = [S r; n] ->
  top_indices argsort p top_k =
  Ok (slice_from (- top_k) (argsort (row0 p))).
Proof.
  intros Hs. unfold top_indices, getitem0, np_argsort, row0.
  rewrite Hs. reflexivity.
Qed.

Lemma length_row0 (p : ndarray A) (r n : nat) :
  shape p = [S r; n] -> well_formed p -> length (row0 p) = n.
Proof.
  unfold well_formed, row0. intros -> Hwf. simpl in *.
  rewrite length_firstn. nia.
Qed.

End Selection.

(** ** [postprocess]: the selected channels and their sum *)

Section PostprocessClaims.

Context {A : Type}.
Variable zero : A.
Variable add : A -> A -> A.
Variable leb : A -> A -> bool.
Variable argsort : list A -> list nat.

(** C1 (amended): for [preds] of shape [(r + 1, n)] and [cams] of shape
    [(B + 1, H, W, C)] with [n <= C] and [0 < C], and for every [top_k >= 1],
    [postprocess] returns a new [H x W] array whose entry [(y, x)] is the
    sum, over the indices [i] of the [min top_k n] largest entries of
    [preds[0]], of [cams[0, y, x, i]]; the indices are the last ones of the
    argsort and are added from left to right in its order, the ascending
    order of the predictions.  With the default [top_k = 1] the
    selection is the single index of a largest entry and, zero being neutral
    on the left, the result is that channel exactly. *)
Theorem postprocess_sums_top_k
        (h : heap A) (preds cams : loc) (top_k : Z) (p t : ndarray A)
        (r n B H W C : nat) :
  nth_error h preds = Some p -> shape p = [S r; n] -> well_formed p ->
  nth_error h cams = Some t -> shape t = [S B; H; W; C] ->
  n <= C -> 0 < C ->
  is_argsort zero leb (row0 p) (argsort (row0 p)) ->
  (1 <= top_k)%Z ->
  exists idxes result,
    postprocess zero add argsort preds cams top_k h =
      (Ok (length h), h ++ [result]) /\
    is_top_k zero leb (row0 p) (Z.to_nat top_k) idxes /\
    idxes = skipn (n - Z.to_nat top_k) (argsort (row0 p)) /\
    StronglySorted
      (fun i j => leb (key zero (row0 p) i) (key zero (row0 p) j) = true)
      idxes /\
    shape result = [H; W] /\
    (forall y x, y < H -> x < W ->
       getitem2 zero result y x = pointwise_sum zero add t idxes y x) /\
    (top_k = 1%Z -> 0 < n -> (forall a, add zero a = a) ->
     exists i,
       idxes = [i] /\
       (forall j, j < n -> j <> i ->
          leb (key zero (row0 p) j) (key zero (row0 p) i) = true) /\
       (forall y x, y < H -> x < W ->
          getitem2 zero result y x = getitem4 zero t 0 y x i)).
Proof.
  intros Hp Hsp Hwf Hc Hst HnC HC Hsort Hk.
  pose proof (length_row0 p r n Hsp Hwf) as Hlen.
  pose proof (is_argsort_length zero leb _ _ Hsort) as Hlidx.
  pose proof (is_top_k_skipn zero leb _ _ (Z.to_nat top_k) Hsort) as Htop.
  set (idxes := skipn (length (row0 p) - Z.to_nat top_k) (argsort (row0 p)))
    in *.
  assert (Hidx : top_indices argsort p top_k = Ok idxes).
  { rewrite (top_indices_ok argsort p r n top_k Hsp).
    unfold slice_from. now rewrite Hlidx, slice_start_top. }
  assert (Hall : Forall (fun i => i < C) idxes).
  { apply Forall_forall. intros i Hi.
    destruct Htop as (_ & _ & Hin & _). apply Hin in Hi. lia. }
  assert (Hdef : idxes = skipn (n - Z.to_nat top_k) (argsort (row0 p)))
    by (unfold idxes; now rewrite Hlen).
  assert (Hord : StronglySorted
                   (fun i j =>
                      leb (key zero (row0 p) i) (key zero (row0 p) j) = true)
                   idxes)
    by (unfold idxes; apply StronglySorted_skipn; apply Hsort).
  clearbody idxes.
  exists idxes, (summed zero add t H W C idxes).
  split; [|split; [|split; [|split; [|split; [|split]]]]]; auto.
  - now apply (postprocess_run zero add argsort h preds cams top_k p t
                 idxes B H W C).
  - intros y x Hy Hx. now apply (getitem2_summed zero add t (S B)).
  - clear Hdef Hord. intros -> Hn Hzero.
    destruct Htop as (_ & Hl & _ & Hdom).
    rewrite Hlen in Hl, Hdom.
    destruct idxes as [|i [|? ?]]; cbn [length] in Hl; try lia.
    exists i. split; [reflexivity|split].
    + intros j Hj Hne. apply Hdom; simpl; auto. intros [->|[]]. now apply Hne.
    + intros y x Hy Hx.
      rewrite (getitem2_summed zero add t (S B)) by auto.
      unfold pointwise_sum. simpl. apply Hzero.
Qed.

(** C8: for [preds] of shape [(r + 1, C)] and [cams] of shape
    [(B + 1, H, W, C)], a call with [top_k = 0], or with [top_k] greater
    than the number [C] of classes, returns the sum over every channel: the
    indices summed are the whole argsort of [preds[0]], a permutation of
    [0 .. C - 1]. *)
Theorem postprocess_top_0_sums_all
        (h : heap A) (preds cams : loc) (top_k : Z) (p t : ndarray A)
        (r B H W C : nat) :
  nth_error h preds = Some p -> shape p = [S r; C] -> well_formed p ->
  nth_error h cams = Some t -> shape t = [S B; H; W; C] ->
  0 < C ->
  is_argsort zero leb (row0 p) (argsort (row0 p)) ->
  top_k = 0%Z \/ (Z.of_nat C < top_k)%Z ->
  exists result,
    postprocess zero add argsort preds cams top_k h =
      (Ok (length h), h ++ [result]) /\
    shape result = [H; W] /\
    Permutation (argsort (row0 p)) (seq 0 C) /\
    (forall y x, y < H -> x < W ->
       getitem2 zero result y x =
       pointwise_sum zero add t (argsort (row0 p)) y x).
Proof.
  intros Hp Hsp Hwf Hc Hst HC Hsort Hk.
  pose proof (length_row0 p r C Hsp Hwf) as Hlen.
  pose proof (is_argsort_length zero leb _ _ Hsort) as Hlidx.
  assert (Hidx : top_indices argsort p top_k = Ok (argsort (row0 p))).
  { rewrite (top_indices_ok argsort p r C top_k Hsp).
    unfold slice_from. rewrite slice_start_all; [reflexivity|lia]. }
  assert (Hall : Forall (fun i => i < C) (argsort (row0 p))).
  { apply Forall_forall. intros i Hi.
    apply (is_argsort_in zero leb _ _ i Hsort) in Hi. lia. }
  exists (summed zero add t H W C (argsort (row0 p))).
  split; [|split; [|split]]; auto.
  - now apply (postprocess_run zero add argsort h preds cams top_k p t
                 _ B H W C).
  - destruct Hsort as [Hperm _]. now rewrite Hlen in Hperm.
  - intros y x Hy Hx. now apply (getitem2_summed zero add t (S B)).
Qed.

(** C10: whatever [postprocess] does, every array that was in the store
    before the call, [preds] and [cams] among them, is unchanged after it.
    When it returns, the result is a new array whose shape is the shape of
    [cams[0, :, :, 0]], and the same array is returned for any other [preds]
    and [top_k] that select the same indices. *)
Theorem postprocess_shape_and_frame
        (h h' : heap A) (preds cams : loc) (top_k : Z) (r : res loc) :
  postprocess zero add argsort preds cams top_k h = (r, h') ->
  firstn (length h) h' = h /\
  (forall cam, r = Ok cam ->
     exists p t ch0 result,
       nth_error h preds = Some p /\
       nth_error h cams = Some t /\
       channel zero t 0 = Ok ch0 /\
       cam = length h /\
       h' = h ++ [result] /\
       shape result = shape ch0 /\
       (forall (h2 : heap A) (preds2 cams2 : loc) (top_k2 : Z)
               (p2 : ndarray A),
          nth_error h2 preds2 = Some p2 ->
          nth_error h2 cams2 = Some t ->
          top_indices argsort p2 top_k2 = top_indices argsort p top_k ->
          postprocess zero add argsort preds2 cams2 top_k2 h2 =
            (Ok (length h2), h2 ++ [result]))).
Proof.
  intros E. split; [exact (postprocess_frame zero add argsort _ _ _ _ _ _ E)|].
  intros cam ->.
  destruct (postprocess_inv zero add argsort _ _ _ _ _ _ E)
    as (p & t & idxes & B & H & W & C & Hp & Hidx & Hc & Hs & HC & Hall).
  rewrite (postprocess_run zero add argsort h preds cams top_k p t idxes
             B H W C Hp Hidx Hc Hs HC Hall) in E.
  inversion E; subst.
  exists p, t, {| shape := [H; W]; data := channel_data zero H W C (data t) 0 |},
    (summed zero add t H W C idxes).
  repeat split; auto.
  - now apply (channel_ok zero t B).
  - intros h2 preds2 cams2 top_k2 p2 Hp2 Hc2 Hidx2.
    rewrite Hidx in Hidx2.
    now apply (postprocess_run zero add argsort h2 preds2 cams2 top_k2 p2 t
                 idxes B H W C).
Qed.

End PostprocessClaims.

(** *** Concrete runs, scalars in [Z] *)

Lemma postprocess_sums_top_k_witness :
  let p := mk_ndarray [1; 3] [5; 9; 7]%Z in
  let t := mk_ndarray [1; 1; 2; 3] [1; 2; 3; 10; 20; 30]%Z in
  let h := [p; t] in
  exists idxes result,
    postprocess 0%Z Z.add (stable_argsort 0%Z Z.leb) 0 1 1 h =
      (Ok (length h), h ++ [result]) /\
    is_top_k 0%Z Z.leb (row0 p) (Z.to_nat 1) idxes /\
    idxes = skipn (3 - Z.to_nat 1) (stable_argsort 0%Z Z.leb (row0 p)) /\
    StronglySorted
      (fun i j => Z.leb (key 0%Z (row0 p) i) (key 0%Z (row0 p) j) = true)
      idxes /\
    shape result = [1; 2] /\
    (forall y x, y < 1 -> x < 2 ->
       getitem2 0%Z result y x = pointwise_sum 0%Z Z.add t idxes y x) /\
    (1%Z = 1%Z -> 0 < 3 -> (forall a, (0 + a)%Z = a) ->
     exists i,
       idxes = [i] /\
       (forall j, j < 3 -> j <> i ->
          Z.leb (key 0%Z (row0 p) j) (key 0%Z (row0 p) i) = true) /\
       (forall y x, y < 1 -> x < 2 ->
          getitem2 0%Z result y x = getitem4 0%Z t 0 y x i)).
Proof.
  intros p t h.
  apply (postprocess_sums_top_k 0%Z Z.add Z.leb (stable_argsort 0%Z Z.leb)
           h 0 1 1%Z p t 0 3 0 1 2 3).
  - reflexivity.
  - reflexivity.
  - vm_compute. reflexivity.
  - reflexivity.
  - reflexivity.
  - lia.
  - lia.
  - split; vm_compute; repeat constructor.
  - lia.
Defined.

(** C1, as stated, fails for [top_k = 0]: on a [1 x 2] prediction and a
    [1 x 1 x 1 x 2] activation tensor the call returns [[30]], the sum of
    both channels, and no selection of zero indices sums to that. *)
Lemma postprocess_top_0_counterexample :
  let p := mk_ndarray [1; 2] [1; 2]%Z in
  let t := mk_ndarray [1; 1; 1; 2] [10; 20]%Z in
  let result := mk_ndarray [1; 1] [30%Z] in
  postprocess 0%Z Z.add (stable_argsort 0%Z Z.leb) 0 1 0 [p; t] =
    (Ok 2, [p; t; result]) /\
  ~ (exists idxes,
       is_top_k 0%Z Z.leb (row0 p) (Z.to_nat 0) idxes /\
       getitem2 0%Z result 0 0 = pointwise_sum 0%Z Z.add t idxes 0 0).
Proof.
  split; [reflexivity|].
  intros (idxes & (_ & Hlen & _) & Hsum).
  destruct idxes as [|i idxes]; [|discriminate Hlen].
  vm_compute in Hsum. discriminate Hsum.
Qed.

Lemma postprocess_top_0_sums_all_witness :
  let p := mk_ndarray [1; 3] [5; 9; 7]%Z in
  let t := mk_ndarray [1; 1; 2; 3] [1; 2; 3; 10; 20; 30]%Z in
  let h := [p; t] in
  exists result,
    postprocess 0%Z Z.add (stable_argsort 0%Z Z.leb) 0 1 0 h =
      (Ok (length h), h ++ [result]) /\
    shape result = [1; 2] /\
    Permutation (stable_argsort 0%Z Z.leb (row0 p)) (seq 0 3) /\
    (forall y x, y < 1 -> x < 2 ->
       getitem2 0%Z result y x =
       pointwise_sum 0%Z Z.add t (stable_argsort 0%Z Z.leb (row0 p)) y x).
Proof.
  intros p t h.
  apply (postprocess_top_0_sums_all 0%Z Z.add Z.leb
           (stable_argsort 0%Z Z.leb) h 0 1 0%Z p t 0 0 1 2 3).
  - reflexivity.
  - reflexivity.
  - vm_compute. reflexivity.
  - reflexivity.
  - reflexivity.
  - lia.
  - split; vm_compute; repeat constructor.
  - left. reflexivity.
Defined.

Lemma postprocess_shape_and_frame_witness :
  let p := mk_ndarray [1; 3] [5; 9; 7]%Z in
  let t := mk_ndarray [1; 1; 2; 3] [1; 2; 3; 10; 20; 30]%Z in
  let h := [p; t] in
  let h' := [p; t; mk_ndarray [1; 2] [5; 50]%Z] in
  firstn (length h) h' = h /\
  (forall cam, Ok 2 = Ok cam ->
     exists p0 t0 ch0 result,
       nth_error h 0 = Some p0 /\
       nth_error h 1 = Some t0 /\
       channel 0%Z t0 0 = Ok ch0 /\
       cam = length h /\
       h' = h ++ [result] /\
       shape result = shape ch0 /\
       (forall (h2 : heap Z) (preds2 cams2 : loc) (top_k2 : Z)
               (p2 : ndarray Z),
          nth_error h2 preds2 = Some p2 ->
          nth_error h2 cams2 = Some t0 ->
          top_indices (stable_argsort 0%Z Z.leb) p2 top_k2 =
            top_indices (stable_argsort 0%Z Z.leb) p0 2 ->
          postprocess 0%Z Z.add (stable_argsort 0%Z Z.leb)
                      preds2 cams2 top_k2 h2 =
            (Ok (length h2), h2 ++ [result]))).
Proof.
  intros p t h h'.
  apply (postprocess_shape_and_frame 0%Z Z.add (stable_argsort 0%Z Z.leb)
           h h' 0 1 2%Z (Ok 2)).
  vm_compute. reflexivity.
Defined.


(** ** The grafted model *)

Lemma unique_NoDup (names : list string) :
  unique names = true <-> NoDup names.
Proof.
  induction names as [|x rest IH]; simpl.
  - split; [constructor|reflexivity].
  - rewrite andb_true_iff, negb_true_iff, IH, NoDup_cons_iff.
    assert (Hin : existsb (String.eqb x) rest = false <-> ~ In x rest).
    { rewrite <- not_true_iff_false, existsb_exists. split.
      - intros Hn Hi. apply Hn. exists x. now rewrite String.eqb_refl.
      - intros Hn (y & Hy & Hxy). apply String.eqb_eq in Hxy. now subst. }
    now rewrite Hin.
Qed.

Lemma NoDup_app_disjoint {X : Type} (l1 l2 : list X) (a : X) :
  NoDup (l1 ++ l2) -> In a l1 -> ~ In a l2.
Proof.
  induction l1 as [|x l1 IH]; simpl; intros Hnd Hin H2; [easy|].
  apply NoDup_cons_iff in Hnd. destruct Hnd as [Hx Hnd].
  destruct Hin as [->|Hin].
  - apply Hx, in_or_app. now right.
  - now apply (IH Hnd Hin).
Qed.

Section KerasFacts.

Context {A : Type}.

Lemma find_name_app (nm : string) (ls ls' : list (layer A)) :
  ~ In nm (map name ls) ->
  find (fun l => String.eqb (name l) nm) (ls ++ ls') =
  find (fun l => String.eqb (name l) nm) ls'.
Proof.
  induction ls as [|l ls IH]; simpl; intros Hn; auto.
  destruct (String.eqb_spec (name l) nm); [tauto|]. apply IH. tauto.
Qed.

Lemma find_name_head (nm : string) (ls ls' : list (layer A)) (l : layer A) :
  find (fun l => String.eqb (name l) nm) ls = Some l ->
  find (fun l => String.eqb (name l) nm) (ls ++ ls') = Some l.
Proof.
  induction ls as [|l0 ls IH]; simpl; [discriminate|].
  destruct (String.eqb (name l0) nm); auto.
Qed.

Lemma map_replace_absent (nm : string) (ws : list (ndarray A))
      (ls : list (layer A)) :
  ~ In nm (map name ls) ->
  map (fun l' => if String.eqb (name l') nm
                 then {| name := name l'; config := config l';
                         output := output l'; weights := ws |}
                 else l') ls = ls.
Proof.
  induction ls as [|l ls IH]; simpl; intros Hn; auto.
  destruct (String.eqb_spec (name l) nm); [tauto|]. rewrite IH; tauto.
Qed.

End KerasFacts.

Section CamModel.

Context {A : Type}.
Variable zero : A.
Variable E : env A.

Lemma names_of_grafted (names : list string) :
  unique (names ++ ["up_sampling2d_1"; "predictions_2"]%string) = true ->
  ~ In "predictions_2"%string names /\ ~ In "up_sampling2d_1"%string names.
Proof.
  intros Hu. apply unique_NoDup in Hu.
  split; intros Hin;
    apply (NoDup_app_disjoint _ _ _ Hu Hin); simpl; auto.
Qed.

(** The construction succeeds on a network whose classification layer has a
    kernel of [D * 1000] scalars and a bias of shape [(1000,)], and whose
    last feature map has [D] channels. *)
Lemma create_cam_model_ok
      (size : nat) (model_class : network)
      (last_conv_layer pred_layer : string) (w : world A)
      (model : keras_model A) (pred conv : layer A) (W b : ndarray A)
      (h wd D : nat) (out : tensor) :
  applications E model_class [size; size; 3] = Ok model ->
  get_layer model pred_layer = Ok pred ->
  getitem (weights pred) 0 = Ok W ->
  getitem (weights pred) 1 = Ok b ->
  size_of (shape W) = D * N_CLASSES ->
  shape b = [N_CLASSES] ->
  get_layer model last_conv_layer = Ok conv ->
  static_shape (output conv) = [h; wd; D] ->
  model_output model = Ok out ->
  unique (map name (layers model)
          ++ ["up_sampling2d_1"; "predictions_2"]%string) = true ->
  _create_cam_model zero E size model_class last_conv_layer pred_layer w =
  (Ok (grafted_model model out h wd D W b), built w model_class size).
Proof.
  intros Happ Hpred HW Hb Hsize Hsb Hconv Hs Hout Hu.
  destruct (names_of_grafted _ Hu) as [Hn2 Hn1].
  unfold _create_cam_model.
  unfold bind at 1, instantiate. rewrite Happ.
  unfold bind at 1, lift at 1. rewrite Hpred.
  unfold bind at 1, lift at 1. rewrite HW.
  unfold bind at 1, lift at 1.
  assert (Hreshape : reshape_1_1_infer W N_CLASSES =
                     Ok {| shape := [1; 1; D; N_CLASSES]; data := data W |}).
  { unfold reshape_1_1_infer. rewrite Hsize.
    rewrite Nat.Div0.mod_mul, Nat.div_mul by discriminate. reflexivity. }
  rewrite Hreshape.
  unfold bind at 1, lift at 1. rewrite Hb.
  unfold bind at 1, lift at 1. rewrite Hconv.
  unfold bind at 1, lift at 1.
  unfold UpSampling2D at 1. rewrite Hs.
  cbn [String.eqb Ascii.eqb Bool.eqb negb orb].
  unfold bind at 1, lift at 1.
  unfold Conv2D. cbn [output static_shape fst snd].
  unfold bind at 1, lift at 1. rewrite Hout.
  unfold bind at 1, lift at 1.
  unfold Model. rewrite map_app. cbn [map name].
  rewrite Hu.
  unfold lift, set_weights, get_layer.
  cbn [layers].
  rewrite find_name_app by exact Hn2.
  cbn [find name String.eqb Ascii.eqb Bool.eqb res_bind
                         weights].
  unfold same_shapes.
  cbn [length combine forallb fst snd shape Nat.eqb andb].
  rewrite Hsb, !shape_eqb_refl.
  cbn [andb input outputs].
  rewrite map_app, map_replace_absent by exact Hn2.
  cbn [map name String.eqb Ascii.eqb Bool.eqb config output weights].
  unfold grafted_model, grafted_upsampling, grafted_conv, built.
  cbn [output]. rewrite !Nat.add_sub. reflexivity.
Qed.

Lemma shape_eqb_true (s1 s2 : list nat) : shape_eqb s1 s2 = true -> s1 = s2.
Proof.
  unfold shape_eqb. now destruct (list_eq_dec Nat.eq_dec s1 s2).
Qed.

Lemma reshape_1_1_infer_inv (W k : ndarray A) :
  reshape_1_1_infer W N_CLASSES = Ok k ->
  exists D,
    size_of (shape W) = D * N_CLASSES /\
    k = {| shape := [1; 1; D; N_CLASSES]; data := data W |}.
Proof.
  unfold reshape_1_1_infer.
  change (N_CLASSES =? 0) with false. rewrite orb_false_l.
  destruct (Nat.eqb_spec (size_of (shape W) mod N_CLASSES) 0) as [Hm|];
    [|discriminate].
  intros [= <-]. exists (size_of (shape W) / N_CLASSES). split; auto.
  apply Nat.Div0.div_exact in Hm. now rewrite Nat.mul_comm.
Qed.

Lemma UpSampling2D_inv (x : tensor) (up : layer A) :
  UpSampling2D (32, 32) "bilinear" x = Ok up ->
  exists h w c, static_shape x = [h; w; c] /\ up = grafted_upsampling h w c.
Proof.
  unfold UpSampling2D.
  cbn [String.eqb Ascii.eqb Bool.eqb negb orb].
  destruct (static_shape x) as [|h [|w [|c [|? ?]]]]; try discriminate.
  intros [= <-]. now exists h, w, c.
Qed.

(** Whenever the construction returns a model, it is the grafted model of
    the network that was built. *)
Lemma create_cam_model_inv
      (size : nat) (model_class : network)
      (last_conv_layer pred_layer : string) (w w' : world A)
      (cam : keras_model A) :
  _create_cam_model zero E size model_class last_conv_layer pred_layer w =
    (Ok cam, w') ->
  exists model pred conv W b h wd D out,
    applications E model_class [size; size; 3] = Ok model /\
    get_layer model pred_layer = Ok pred /\
    getitem (weights pred) 0 = Ok W /\
    getitem (weights pred) 1 = Ok b /\
    size_of (shape W) = D * N_CLASSES /\
    shape b = [N_CLASSES] /\
    get_layer model last_conv_layer = Ok conv /\
    static_shape (output conv) = [h; wd; D] /\
    model_output model = Ok out /\
    unique (map name (layers model)
            ++ ["up_sampling2d_1"; "predictions_2"]%string) = true /\
    cam = grafted_model model out h wd D W b /\
    w' = built w model_class size.
Proof.
  intros Hrun. pose proof Hrun as Hrun0.
  unfold _create_cam_model in Hrun.
  unfold bind at 1, instantiate in Hrun.
  destruct (applications E model_class [size; size; 3]) as [model| |]
    eqn:Happ; try discriminate.
  unfold bind at 1, lift at 1 in Hrun.
  destruct (get_layer model pred_layer) as [pred| |] eqn:Hpred;
    try discriminate.
  unfold bind at 1, lift at 1 in Hrun.
  destruct (getitem (weights pred) 0) as [W| |] eqn:HW; try discriminate.
  unfold bind at 1, lift at 1 in Hrun.
  destruct (reshape_1_1_infer W N_CLASSES) as [kernel| |] eqn:Hk;
    try discriminate.
  destruct (reshape_1_1_infer_inv _ _ Hk) as (D & Hsize & ->).
  unfold bind at 1, lift at 1 in Hrun.
  destruct (getitem (weights pred) 1) as [b| |] eqn:Hb; try discriminate.
  unfold bind at 1, lift at 1 in Hrun.
  destruct (get_layer model last_conv_layer) as [conv| |] eqn:Hconv;
    try discriminate.
  unfold bind at 1, lift at 1 in Hrun.
  destruct (UpSampling2D (32, 32) "bilinear" (output conv)) as [up| |]
    eqn:Hup; try discriminate.
  destruct (UpSampling2D_inv _ _ Hup) as (h & wd & c & Hs & ->).
  unfold bind at 1, lift at 1 in Hrun.
  unfold Conv2D, grafted_upsampling in Hrun.
  cbn [output static_shape fst snd] in Hrun.
  unfold bind at 1, lift at 1 in Hrun.
  destruct (model_output model) as [out| |] eqn:Hout; try discriminate.
  unfold bind at 1, lift at 1 in Hrun.
  unfold Model in Hrun. rewrite map_app in Hrun.
  cbn [map name] in Hrun.
  destruct (unique (map name (layers model)
                    ++ ["up_sampling2d_1"; "predictions_2"]%string))
    eqn:Hu; try discriminate.
  destruct (names_of_grafted _ Hu) as [Hn2 Hn1].
  unfold lift, set_weights, get_layer in Hrun.
  cbn [layers] in Hrun.
  rewrite find_name_app in Hrun by exact Hn2.
  cbn [find name String.eqb Ascii.eqb Bool.eqb res_bind weights] in Hrun.
  unfold same_shapes in Hrun.
  cbn [length combine forallb fst snd shape Nat.eqb andb] in Hrun.
  destruct (shape_eqb [1; 1; c; N_CLASSES] [1; 1; D; N_CLASSES]) eqn:Hk1;
    try discriminate.
  destruct (shape_eqb [N_CLASSES] (shape b)) eqn:Hb1; try discriminate.
  apply shape_eqb_true in Hk1, Hb1. injection Hk1 as ->.
  rewrite (create_cam_model_ok size model_class last_conv_layer pred_layer
             w model pred conv W b h wd D out) in Hrun0; auto.
  injection Hrun0 as <- <-.
  exists model, pred, conv, W, b, h, wd, D, out. repeat split; auto.
Qed.

Lemma create_cam_model_world
      (size : nat) (model_class : network)
      (last_conv_layer pred_layer : string) (w : world A) :
  snd (_create_cam_model zero E size model_class last_conv_layer pred_layer w)
  = built w model_class size.
Proof.
  unfold _create_cam_model. unfold bind at 1, instantiate.
  destruct (applications E model_class [size; size; 3]); try reflexivity.
  repeat match goal with
         | |- snd (bind (lift ?r) _ _) = _ =>
             unfold bind at 1, lift at 1; destruct r; try reflexivity
         end.
Qed.

Lemma backend_of_unfold (n : network) :
  backend_of zero E n =
  _Backend__init__ zero E (input_size_of n) (last_conv_layer_of n)
                   (pred_layer_of n) (preprocess_of E n) n.
Proof. destruct n; reflexivity. Qed.

Lemma backend_init_world
      (size : nat) (last_conv_layer pred_layer : string)
      (pf : ndarray A -> ndarray A) (model_class : network)
      (w w' : world A) (r : res (_Backend A)) :
  _Backend__init__ zero E size last_conv_layer pred_layer pf model_class w =
    (r, w') ->
  w' = built w model_class size.
Proof.
  unfold _Backend__init__, bind.
  pose proof (create_cam_model_world size model_class last_conv_layer
                pred_layer w) as Hw.
  destruct (_create_cam_model zero E size model_class last_conv_layer
              pred_layer w) as [[cam| |] w1]; cbn [snd] in Hw;
    unfold ret; intros [= <- <-]; exact Hw.
Qed.

Lemma backend_init_inv
      (size : nat) (last_conv_layer pred_layer : string)
      (pf : ndarray A -> ndarray A) (model_class : network)
      (w w' : world A) (b : _Backend A) :
  _Backend__init__ zero E size last_conv_layer pred_layer pf model_class w =
    (Ok b, w') ->
  _create_cam_model zero E size model_class last_conv_layer pred_layer w =
    (Ok (cam_model b), w') /\
  input_size b = size /\ preprocess_fn b = pf.
Proof.
  unfold _Backend__init__, bind.
  destruct (_create_cam_model zero E size model_class last_conv_layer
              pred_layer w) as [[cam| |] w1]; try discriminate.
  unfold ret. intros [= <- <-]. auto.
Qed.

(** C4: ["resnet"] selects ResNet50, ["nasnet"] NASNetLarge and
    ["inception"] InceptionResNetV2; the constructor of a backend builds
    that network and no other, with the input shape of its class, and
    touches nothing else; any other string raises [ValueError] and leaves
    the world as it was, no network built. *)
Theorem select_backend_cases (w : world A) :
  select_backend zero E "resnet" w = backend_of zero E ResNet50 w /\
  select_backend zero E "nasnet" w = backend_of zero E NASNetLarge w /\
  select_backend zero E "inception" w =
    backend_of zero E InceptionResNetV2 w /\
  (forall n r w',
     backend_of zero E n w = (r, w') ->
     w' = built w n (input_size_of n) /\
     instantiated w' =
       instantiated w ++ [(n, [input_size_of n; input_size_of n; 3])]) /\
  (forall s : string,
     s <> "resnet"%string -> s <> "nasnet"%string ->
     s <> "inception"%string ->
     select_backend zero E s w = (Raise ValueError, w)).
Proof.
  split; [reflexivity|split; [reflexivity|split; [reflexivity|split]]].
  - intros n r w' Hrun. rewrite backend_of_unfold in Hrun.
    apply backend_init_world in Hrun. now subst.
  - intros s H1 H2 H3. unfold select_backend.
    apply String.eqb_neq in H1, H2, H3. now rewrite H1, H2, H3.
Qed.

(** C9: the default ["resnet50"] of the [base_network] argument is none of
    the three accepted names; the selection raises [ValueError] on it. *)
Theorem default_base_network_rejected (w : world A) :
  base_network_default = "resnet50"%string /\
  base_network_default <> "resnet"%string /\
  base_network_default <> "nasnet"%string /\
  base_network_default <> "inception"%string /\
  select_backend zero E base_network_default w = (Raise ValueError, w).
Proof. repeat split; discriminate. Qed.

(** C2 (amended): the map that a backend grafts has 32 times the rows and
    columns of the last feature map of its network, by a bilinear
    [UpSampling2D] of factors [(32, 32)] whatever the backend.  That is the
    input size for ResNet50 exactly when the feature map is 7 x 7, and never
    for InceptionResNetV2 and NASNetLarge, whose input sizes 299 and 331
    are no multiples of 32. *)
Theorem cam_output_is_32_times_feature_map
        (n : network) (w w' : world A) (b : _Backend A) :
  backend_of zero E n w = (Ok b, w') ->
  exists model conv h wd D up,
    applications E n [input_size_of n; input_size_of n; 3] = Ok model /\
    get_layer model (last_conv_layer_of n) = Ok conv /\
    static_shape (output conv) = [h; wd; D] /\
    get_layer (cam_model b) "up_sampling2d_1" = Ok up /\
    config up = UpSampling2D_config (32, 32) "bilinear" /\
    static_shape (output up) = [32 * h; 32 * wd; D] /\
    cam_spatial_size (cam_model b) = Some (32 * h, 32 * wd) /\
    input_size b = input_size_of n /\
    (cam_spatial_size (cam_model b) = Some (input_size b, input_size b) <->
     n = ResNet50 /\ h = 7 /\ wd = 7).
Proof.
  intros Hrun. rewrite backend_of_unfold in Hrun.
  apply backend_init_inv in Hrun. destruct Hrun as (Hrun & Hsize & _).
  apply create_cam_model_inv in Hrun.
  destruct Hrun as (model & pred & conv & W & bias & h & wd & D & out &
                    Happ & _ & _ & _ & _ & _ & Hconv & Hs & _ & Hu & Hcam & _).
  destruct (names_of_grafted _ Hu) as [_ Hn1].
  exists model, conv, h, wd, D, (grafted_upsampling h wd D).
  rewrite Hcam, Hsize.
  split; [exact Happ|split; [exact Hconv|split; [exact Hs|]]].
  split.
  { unfold get_layer, grafted_model. cbn [layers].
    now rewrite find_name_app by exact Hn1. }
  split; [reflexivity|split; [reflexivity|split; [reflexivity|]]].
  split; [reflexivity|].
  unfold cam_spatial_size, grafted_model, grafted_conv.
  cbn [outputs output static_shape].
  split.
  - intros [= H1 H2]. destruct n; cbn [input_size_of] in H1, H2;
      repeat split; lia.
  - intros (-> & -> & ->). reflexivity.
Qed.

(** C3: the layer ["predictions_2"] that a backend grafts is a convolution
    with [N_CLASSES = 1000] filters and a 1 x 1 kernel; its kernel is the
    buffer of the kernel [W] of the classification layer of the network
    under the shape [(1, 1, D, 1000)], where [D * 1000] is the number of
    scalars of [W], and its bias is the bias of that layer. *)
Theorem grafted_layer_weights
        (n : network) (w w' : world A) (b : _Backend A) :
  backend_of zero E n w = (Ok b, w') ->
  exists model pred W bias D l,
    applications E n [input_size_of n; input_size_of n; 3] = Ok model /\
    get_layer model (pred_layer_of n) = Ok pred /\
    getitem (weights pred) 0 = Ok W /\
    getitem (weights pred) 1 = Ok bias /\
    size_of (shape W) = D * N_CLASSES /\
    get_layer (cam_model b) "predictions_2" = Ok l /\
    config l = Conv2D_config N_CLASSES (1, 1) /\
    N_CLASSES = 1000 /\
    weights l = [ {| shape := [1; 1; D; N_CLASSES]; data := data W |};
                  bias ].
Proof.
  intros Hrun. rewrite backend_of_unfold in Hrun.
  apply backend_init_inv in Hrun. destruct Hrun as (Hrun & _ & _).
  apply create_cam_model_inv in Hrun.
  destruct Hrun as (model & pred & conv & W & bias & h & wd & D & out &
                    Happ & Hpred & HW & Hb & Hsize & _ & _ & _ & _ & Hu &
                    Hcam & _).
  destruct (names_of_grafted _ Hu) as [Hn2 _].
  exists model, pred, W, bias, D, (grafted_conv h wd D W bias).
  rewrite Hcam. repeat split; auto.
  unfold get_layer, grafted_model. cbn [layers].
  now rewrite find_name_app by exact Hn2.
Qed.

(** C7: on a batch of the input shape of the model, [predict] of a backend
    returns the pair of the value of the classification output of the
    network and the value of the output of the grafted layer
    ["predictions_2"], in this order, the order of the two outputs of the
    model. *)
Theorem predict_returns_preds_then_cams
        (n : network) (w w' : world A) (b : _Backend A)
        (imgs : ndarray A) (k : nat) :
  backend_of zero E n w = (Ok b, w') ->
  shape imgs = k :: static_shape (input (cam_model b)) ->
  exists model out l,
    applications E n [input_size_of n; input_size_of n; 3] = Ok model /\
    model_output model = Ok out /\
    get_layer (cam_model b) "predictions_2" = Ok l /\
    outputs (cam_model b) = [out; output l] /\
    predict E b imgs =
      Ok (forward E (cam_model b) out imgs,
          forward E (cam_model b) (output l) imgs).
Proof.
  intros Hrun Himgs. rewrite backend_of_unfold in Hrun.
  apply backend_init_inv in Hrun. destruct Hrun as (Hrun & _ & _).
  apply create_cam_model_inv in Hrun.
  destruct Hrun as (model & pred & conv & W & bias & h & wd & D & out &
                    Happ & _ & _ & _ & _ & _ & _ & _ & Hout & Hu & Hcam & _).
  destruct (names_of_grafted _ Hu) as [Hn2 _].
  exists model, out, (grafted_conv h wd D W bias).
  unfold predict, Model_predict. rewrite Himgs, shape_eqb_refl.
  rewrite Hcam. repeat split; auto.
  unfold get_layer, grafted_model. cbn [layers].
  now rewrite find_name_app by exact Hn2.
Qed.

End CamModel.

(** ** Loading the image and drawing the overlay *)

Section Pipeline.

Context {A : Type}.
Variable zero : A.
Variable add : A -> A -> A.
Variable argsort : list A -> list nat.
Variable E : env A.

Lemma cv2_resize_2d (src : ndarray A) (H W width height : nat) :
  shape src = [H; W] ->
  forall dst, cv2_resize (interpolate E) src (width, height) = Ok dst ->
  shape dst = [height; width] /\ 0 < H /\ 0 < W /\ 0 < width /\ 0 < height.
Proof.
  intros Hs dst. unfold cv2_resize. rewrite Hs.
  destruct H, W, width, height; cbn [Nat.eqb orb]; try discriminate.
  intros [= <-]. cbn [shape]. repeat split; lia.
Qed.

Lemma cv2_resize_3d (src : ndarray A) (H W C width height : nat) :
  shape src = [H; W; C] ->
  forall dst, cv2_resize (interpolate E) src (width, height) = Ok dst ->
  shape dst = [height; width; C] /\
  0 < H /\ 0 < W /\ 0 < width /\ 0 < height.
Proof.
  intros Hs dst. unfold cv2_resize. rewrite Hs.
  destruct H, W, width, height; cbn [Nat.eqb orb]; try discriminate.
  destruct (2 <=? C); try discriminate.
  intros [= <-]. cbn [shape]. repeat split; lia.
Qed.

Lemma reverse_channels_inv (a b : ndarray A) :
  reverse_channels a = Ok b ->
  exists H W C, shape a = [H; W; C] /\ shape b = [H; W; C].
Proof.
  unfold reverse_channels.
  destruct (shape a) as [|H [|W [|C [|? ?]]]]; try discriminate.
  intros [= <-]. now exists H, W, C.
Qed.


Lemma load_img_inv (self : _Backend A) (fname : string)
      (imgs original_img : ndarray A) (original_size : nat * nat) :
  load_img E self fname = Ok (imgs, original_img, original_size) ->
  exists raw H W C,
    imread E fname = Some raw /\
    shape raw = [H; W; C] /\
    shape original_img = [H; W; C] /\
    original_size = (W, H) /\
    0 < H /\ 0 < W.
Proof.
  unfold load_img.
  destruct (imread E fname) as [raw|]; [|discriminate].
  destruct (reverse_channels raw) as [oimg| |] eqn:Hrev; try discriminate.
  destruct (reverse_channels_inv _ _ Hrev) as (H & W & C & Hs & Hso).
  cbn [res_bind].
  destruct (cv2_resize (interpolate E) oimg (input_size self, input_size self))
    as [img| |] eqn:Hres; try discriminate.
  cbn [res_bind]. intros [= _ <- <-].
  destruct (cv2_resize_3d _ _ _ _ _ _ Hso _ Hres) as (_ & HH & HW & _).
  exists raw, H, W, C. rewrite Hso. cbn [nth]. repeat split; auto.
Qed.

Lemma select_backend_world (s : string) (w w' : world A)
      (r : res (_Backend A)) :
  select_backend zero E s w = (r, w') ->
  store w' = store w /\ axes w' = axes w.
Proof.
  unfold select_backend.
  destruct (String.eqb s "resnet");
    [|destruct (String.eqb s "nasnet");
      [|destruct (String.eqb s "inception")]];
    intros Hrun;
    try (apply (backend_init_world zero E) in Hrun; subst; now split).
  injection Hrun as <- <-. now split.
Qed.

(** C6: whenever the main program gets to the end, it has drawn two images:
    the original image that [load_img] returned, of [H] rows and [W]
    columns, and over it the array that [postprocess] returned on the
    predictions and activation maps of [predict], resized by [cv2.resize]
    to [(W, H)]: an array of [H] rows and [W] columns whatever the input
    size of the network. *)
Theorem overlay_has_original_size
        (input_image_file base_network : string) (w w' : world A) :
  main zero add argsort E input_image_file base_network w = (Ok tt, w') ->
  exists cam_builder w1 imgs preds cams
         raw original_img class_activation_map overlay H W C,
    select_backend zero E base_network w = (Ok cam_builder, w1) /\
    imread E input_image_file = Some raw /\
    shape raw = [H; W; C] /\
    load_img E cam_builder input_image_file =
      Ok (imgs, original_img, (W, H)) /\
    shape original_img = [H; W; C] /\
    predict E cam_builder imgs = Ok (preds, cams) /\
    postprocess zero add argsort
                (length (store w)) (S (length (store w))) 1
                (store w ++ [preds; cams]) =
      (Ok (S (S (length (store w)))),
       store w ++ [preds; cams; class_activation_map]) /\
    store w' = store w ++ [preds; cams; class_activation_map] /\
    cv2_resize (interpolate E) class_activation_map (W, H) = Ok overlay /\
    shape overlay = [H; W] /\
    axes w' =
      axes w ++ [(original_img, None); (overlay, Some "jet"%string)] /\
    shown w' = true.
Proof.
  intros Hrun. unfold main in Hrun.
  unfold bind at 1 in Hrun.
  destruct (select_backend zero E base_network w) as [[b| |] w1] eqn:Hsel;
    try discriminate.
  destruct (select_backend_world _ _ _ _ Hsel) as [Hst1 Hax1].
  unfold bind at 1, lift at 1 in Hrun.
  destruct (load_img E b input_image_file) as [[[imgs oimg] osize]| |]
    eqn:Hload; try discriminate.
  destruct (load_img_inv _ _ _ _ _ Hload)
    as (raw & H & W & C & Hread & Hs & Hso & -> & HH & HW).
  unfold bind at 1, lift at 1 in Hrun.
  destruct (predict E b imgs) as [[preds_array cams_array]| |] eqn:Hpred;
    try discriminate.
  unfold bind at 1, in_store at 1, alloc at 1 in Hrun.
  unfold bind at 1, in_store at 1, alloc at 1 in Hrun.
  unfold bind at 1, in_store at 1 in Hrun.
  cbn [store instantiated axes shown] in Hrun.
  destruct (postprocess zero add argsort _ _ 1 _) as [[cam| |] h2] eqn:Hpost;
    try discriminate.
  pose proof Hpost as Hpost0.
  destruct (postprocess_inv zero add argsort _ _ _ _ _ _ Hpost)
    as (p & t & idxes & B & Hc & Wc & Cc & Hp & Hidx & Hcm & Hsh & HC & Hall).
  rewrite (postprocess_run zero add argsort _ _ _ _ p t idxes B Hc Wc Cc
             Hp Hidx Hcm Hsh HC Hall) in Hpost.
  injection Hpost as <- <-.
  set (result := summed zero add t Hc Wc Cc idxes) in *.
  assert (Hshape : shape result = [Hc; Wc]) by reflexivity.
  clearbody result.
  unfold bind at 1, in_store at 1, deref at 1 in Hrun.
  cbn [store instantiated axes shown] in Hrun.
  rewrite nth_error_app2, Nat.sub_diag in Hrun by lia.
  cbn [nth_error] in Hrun.
  unfold bind at 1, plt_imshow at 1 in Hrun.
  cbn [store instantiated axes shown] in Hrun.
  unfold bind at 1, lift at 1 in Hrun.
  destruct (cv2_resize (interpolate E) result (W, H)) as [overlay| |]
    eqn:Hov; try discriminate.
  destruct (cv2_resize_2d _ _ _ _ _ Hshape _ Hov) as (Hso' & _).
  unfold bind, plt_imshow, plt_show in Hrun.
  cbn [store instantiated axes shown] in Hrun.
  injection Hrun as <-. cbn [store axes shown].
  assert (E1 : length (store w ++ [preds_array]) = S (length (store w)))
    by (rewrite length_app; cbn [length]; lia).
  assert (E2 : length ((store w ++ [preds_array]) ++ [cams_array]) =
               S (S (length (store w))))
    by (rewrite !length_app; cbn [length]; lia).
  assert (E3 : (store w ++ [preds_array]) ++ [cams_array] =
               store w ++ [preds_array; cams_array])
    by now rewrite <- app_assoc.
  assert (E4 : ((store w ++ [preds_array]) ++ [cams_array]) ++ [result] =
               store w ++ [preds_array; cams_array; result])
    by now rewrite <- !app_assoc.
  rewrite Hst1 in Hpost0 |- *. rewrite E1, E2, E4, E3 in Hpost0.
  exists b, w1, imgs, preds_array, cams_array, raw, oimg, result, overlay,
    H, W, C.
  rewrite E4, Hax1, <- app_assoc. repeat split; auto.
Qed.

End Pipeline.

(** ** Concrete runs on the stand-in libraries *)

Lemma cam_output_is_32_times_feature_map_witness :
  let b := Demo.backend ResNet50 in
  exists model conv h wd D up,
    applications Demo.E ResNet50
      [input_size_of ResNet50; input_size_of ResNet50; 3] = Ok model /\
    get_layer model (last_conv_layer_of ResNet50) = Ok conv /\
    static_shape (output conv) = [h; wd; D] /\
    get_layer (cam_model b) "up_sampling2d_1" = Ok up /\
    config up = UpSampling2D_config (32, 32) "bilinear" /\
    static_shape (output up) = [32 * h; 32 * wd; D] /\
    cam_spatial_size (cam_model b) = Some (32 * h, 32 * wd) /\
    input_size b = input_size_of ResNet50 /\
    (cam_spatial_size (cam_model b) = Some (input_size b, input_size b) <->
     ResNet50 = ResNet50 /\ h = 7 /\ wd = 7).
Proof.
  intros b.
  apply (cam_output_is_32_times_feature_map 0%Z Demo.E ResNet50 Demo.w0
           (built Demo.w0 ResNet50 224) b).
  vm_compute. reflexivity.
Defined.

(** C2, as stated, fails for InceptionResNetV2: from a last feature map of
    8 x 8, the spatial size of the real network on a 299 x 299 input, the
    grafted map is 256 x 256, not 299 x 299. *)
Lemma cam_output_not_input_size_counterexample :
  let b := Demo.backend InceptionResNetV2 in
  backend_of 0%Z Demo.E InceptionResNetV2 Demo.w0 =
    (Ok b, built Demo.w0 InceptionResNetV2 299) /\
  input_size b = 299 /\
  cam_spatial_size (cam_model b) = Some (256, 256) /\
  cam_spatial_size (cam_model b) <> Some (input_size b, input_size b).
Proof.
  intros b. split; [vm_compute; reflexivity|].
  split; [reflexivity|]. split; [reflexivity|].
  intros H. vm_compute in H. discriminate H.
Qed.

Lemma grafted_layer_weights_witness :
  let b := Demo.backend NASNetLarge in
  exists model pred W bias D l,
    applications Demo.E NASNetLarge
      [input_size_of NASNetLarge; input_size_of NASNetLarge; 3] = Ok model /\
    get_layer model (pred_layer_of NASNetLarge) = Ok pred /\
    getitem (weights pred) 0 = Ok W /\
    getitem (weights pred) 1 = Ok bias /\
    size_of (shape W) = D * N_CLASSES /\
    get_layer (cam_model b) "predictions_2" = Ok l /\
    config l = Conv2D_config N_CLASSES (1, 1) /\
    N_CLASSES = 1000 /\
    weights l = [ {| shape := [1; 1; D; N_CLASSES]; data := data W |};
                  bias ].
Proof.
  intros b.
  apply (grafted_layer_weights 0%Z Demo.E NASNetLarge Demo.w0
           (built Demo.w0 NASNetLarge 331) b).
  vm_compute. reflexivity.
Defined.

Lemma predict_returns_preds_then_cams_witness :
  let b := Demo.backend ResNet50 in
  exists model out l,
    applications Demo.E ResNet50
      [input_size_of ResNet50; input_size_of ResNet50; 3] = Ok model /\
    model_output model = Ok out /\
    get_layer (cam_model b) "predictions_2" = Ok l /\
    outputs (cam_model b) = [out; output l] /\
    predict Demo.E b Demo.blank =
      Ok (forward Demo.E (cam_model b) out Demo.blank,
          forward Demo.E (cam_model b) (output l) Demo.blank).
Proof.
  intros b.
  apply (predict_returns_preds_then_cams 0%Z Demo.E ResNet50 Demo.w0
           (built Demo.w0 ResNet50 224) b Demo.blank 1).
  - vm_compute. reflexivity.
  - reflexivity.
Defined.

Lemma select_backend_cases_witness :
  select_backend 0%Z Demo.E "vgg16" Demo.w0 = (Raise ValueError, Demo.w0) /\
  instantiated (built Demo.w0 NASNetLarge 331) =
    instantiated Demo.w0 ++ [(NASNetLarge, [331; 331; 3])].
Proof.
  destruct (select_backend_cases 0%Z Demo.E Demo.w0)
    as (_ & _ & _ & Hbuilt & Hother).
  split.
  - apply Hother; discriminate.
  - apply (Hbuilt NASNetLarge (Ok (Demo.backend NASNetLarge))).
    vm_compute. reflexivity.
Defined.


Lemma overlay_has_original_size_witness :
  exists cam_builder w1 imgs preds cams
         raw original_img class_activation_map overlay H W C,
    select_backend 0%Z Demo.E "resnet" Demo.w0 = (Ok cam_builder, w1) /\
    imread Demo.E "dog.png" = Some raw /\
    shape raw = [H; W; C] /\
    load_img Demo.E cam_builder "dog.png" =
      Ok (imgs, original_img, (W, H)) /\
    shape original_img = [H; W; C] /\
    predict Demo.E cam_builder imgs = Ok (preds, cams) /\
    postprocess 0%Z Z.add Demo.argsort
                (length (store Demo.w0)) (S (length (store Demo.w0))) 1
                (store Demo.w0 ++ [preds; cams]) =
      (Ok (S (S (length (store Demo.w0)))),
       store Demo.w0 ++ [preds; cams; class_activation_map]) /\
    store Demo.w_end =
      store Demo.w0 ++ [preds; cams; class_activation_map] /\
    cv2_resize (interpolate Demo.E) class_activation_map (W, H) =
      Ok overlay /\
    shape overlay = [H; W] /\
    axes Demo.w_end =
      axes Demo.w0
      ++ [(original_img, None); (overlay, Some "jet"%string)] /\
    shown Demo.w_end = true.
Proof.
  apply (overlay_has_original_size 0%Z Z.add Demo.argsort Demo.E
           "dog.png" "resnet" Demo.w0 Demo.w_end).
  vm_compute. reflexivity.
Defined.

(** * Further properties of the code *)

(** ** [postprocess]: index errors *)

Section PostprocessEdges.

Context {A : Type}.
Variable zero : A.
Variable add : A -> A -> A.
Variable leb : A -> A -> bool.
Variable argsort : list A -> list nat.

(** X1: on a prediction array without rows, [preds[0]] raises [IndexError]
    before anything is read from [cams] or allocated: the store is the one
    of the caller. *)
Theorem postprocess_no_rows
        (h : heap A) (preds cams : loc) (top_k : Z) (p : ndarray A)
        (rest : list nat) :
  nth_error h preds = Some p ->
  shape p = 0 :: rest ->
  postprocess zero add argsort preds cams top_k h = (Raise IndexError, h).
Proof.
  intros Hp Hs.
  unfold postprocess, bind at 1, deref at 1. rewrite Hp.
  unfold bind at 1, lift at 1, top_indices, getitem0. rewrite Hs.
  reflexivity.
Qed.

(** X2: on an activation tensor with an empty batch or without channels,
    [cams[0, :, :, 0]] raises [IndexError]; no accumulator is allocated and
    the store is the one of the caller. *)
Theorem postprocess_empty_cams
        (h : heap A) (preds cams : loc) (top_k : Z) (p t : ndarray A)
        (idxes : list nat) (B H W C : nat) :
  nth_error h preds = Some p ->
  top_indices argsort p top_k = Ok idxes ->
  nth_error h cams = Some t ->
  shape t = [B; H; W; C] ->
  B = 0 \/ C = 0 ->
  postprocess zero add argsort preds cams top_k h = (Raise IndexError, h).
Proof.
  intros Hp Hidx Hc Hs HBC.
  unfold postprocess, bind at 1, deref at 1. rewrite Hp.
  unfold bind at 1, lift at 1. rewrite Hidx.
  unfold bind at 1, deref at 1. rewrite Hc.
  unfold bind at 1, lift at 1, channel. rewrite Hs.
  destruct HBC as [-> | ->].
  - reflexivity.
  - cbn [Nat.leb]. now rewrite orb_true_r.
Qed.

Lemma for_each_out_of_range (cams cam : loc) (t : ndarray A) (B H W C : nat) :
  shape t = [S B; H; W; C] -> cam <> cams ->
  forall (idxes : list nat) (acc : list A) (h : heap A),
    Exists (fun i => C <= i) idxes ->
    nth_error h cams = Some t ->
    nth_error h cam = Some {| shape := [H; W]; data := acc |} ->
    exists h',
      for_each idxes (loop_body zero add cams cam) h = (Raise IndexError, h').
Proof.
  intros Hs Hne idxes.
  induction idxes as [|i idxes IH]; intros acc h Hex Hc Ha.
  - inversion Hex.
  - simpl. unfold bind at 1.
    destruct (Nat.lt_ge_cases i C) as [Hi|Hi].
    + rewrite (loop_body_ok zero add cams cam t B H W C acc i h
                 Hs Hi Hne Hc Ha).
      assert (Hlt : cam < length h) by (apply nth_error_Some; congruence).
      apply Exists_cons in Hex. destruct Hex as [Hex|Hex]; [lia|].
      eapply IH; [exact Hex| |].
      * now rewrite nth_error_update_ne by auto.
      * now apply nth_error_update_eq.
    + exists h. unfold loop_body, bind, deref, lift. rewrite Hc.
      now rewrite (channel_out_of_range zero t (S B) H W C i Hs Hi).
Qed.

(** X3: when one of the selected indices is not a channel of [cams] (the
    prediction has more classes than the tensor has channels),
    [postprocess] raises [IndexError], possibly after some channels were
    added; the arrays of the caller are unchanged all the same. *)
Theorem postprocess_index_beyond_channels
        (h : heap A) (preds cams : loc) (top_k : Z) (p t : ndarray A)
        (idxes : list nat) (B H W C : nat) :
  nth_error h preds = Some p ->
  top_indices argsort p top_k = Ok idxes ->
  nth_error h cams = Some t ->
  shape t = [S B; H; W; C] ->
  0 < C ->
  Exists (fun i => C <= i) idxes ->
  exists h',
    postprocess zero add argsort preds cams top_k h = (Raise IndexError, h') /\
    firstn (length h) h' = h.
Proof.
  intros Hp Hidx Hc Hs HC Hex.
  assert (Hrun : exists h',
             postprocess zero add argsort preds cams top_k h =
             (Raise IndexError, h')).
  { unfold postprocess, bind at 1, deref at 1. rewrite Hp.
    unfold bind at 1, lift at 1. rewrite Hidx.
    unfold bind at 1, deref at 1. rewrite Hc.
    unfold bind at 1, lift at 1. rewrite (channel_ok zero t B H W C 0 Hs HC).
    unfold bind at 1, alloc, zeros_like. cbn [shape].
    assert (Hlt : cams < length h) by (apply nth_error_Some; congruence).
    destruct (for_each_out_of_range cams (length h) t B H W C Hs
                ltac:(lia) idxes (repeat zero (size_of [H; W]))
                (h ++ [{| shape := [H; W];
                          data := repeat zero (size_of [H; W]) |}]) Hex)
      as (h' & Hloop).
    - now rewrite nth_error_app1.
    - now rewrite nth_error_app2, Nat.sub_diag.
    - exists h'. unfold bind. now rewrite Hloop. }
  destruct Hrun as (h' & Hrun). exists h'. split; [exact Hrun|].
  exact (postprocess_frame zero add argsort _ _ _ _ _ _ Hrun).
Qed.

End PostprocessEdges.

(** ** [postprocess]: other values of [top_k], repeated calls *)

Lemma slice_start_negative_top (k : Z) (n : nat) :
  (k < 0)%Z -> slice_start (- k) n = n - (n - Z.to_nat (- k)).
Proof.
  intros Hk. unfold slice_start.
  destruct (Z.ltb_spec (- k) 0); lia.
Qed.

Lemma fold_left_permutation {X : Type} (f : X -> X -> X) :
  (forall a b c, f (f a b) c = f a (f b c)) ->
  (forall a b, f a b = f b a) ->
  forall l l' : list X,
    Permutation l l' -> forall a, fold_left f l a = fold_left f l' a.
Proof.
  intros Hassoc Hcomm l l' Hperm.
  induction Hperm as [|x l l' _ IH|x y l|l l' l'' _ IH1 _ IH2]; intros a.
  - reflexivity.
  - simpl. apply IH.
  - simpl. f_equal. now rewrite !Hassoc, (Hcomm y x).
  - now rewrite IH1.
Qed.

Section PostprocessSelection.

Context {A : Type}.
Variable zero : A.
Variable add : A -> A -> A.
Variable leb : A -> A -> bool.
Variable argsort : list A -> list nat.

(** On arrays of matching shapes the call returns, for every [top_k], the
    sum over the slice of the argsort. *)
Lemma postprocess_selected
      (h : heap A) (preds cams : loc) (top_k : Z) (p t : ndarray A)
      (r n B H W C : nat) :
  nth_error h preds = Some p -> shape p = [S r; n] -> well_formed p ->
  nth_error h cams = Some t -> shape t = [S B; H; W; C] ->
  n <= C -> 0 < C ->
  is_argsort zero leb (row0 p) (argsort (row0 p)) ->
  postprocess zero add argsort preds cams top_k h =
  (Ok (length h),
   h ++ [summed zero add t H W C (slice_from (- top_k) (argsort (row0 p)))]).
Proof.
  intros Hp Hsp Hwf Hc Hst HnC HC Hsort.
  pose proof (length_row0 p r n Hsp Hwf) as Hlen.
  apply (postprocess_run zero add argsort h preds cams top_k p t _ B H W C);
    auto.
  - apply (top_indices_ok argsort p r n top_k Hsp).
  - apply Forall_forall. intros i Hi.
    unfold slice_from in Hi.
    assert (Hin : In i (argsort (row0 p))).
    { rewrite <- (firstn_skipn
                    (slice_start (- top_k) (length (argsort (row0 p))))
                    (argsort (row0 p))).
      apply in_or_app. now right. }
    apply (is_argsort_in zero leb _ _ i Hsort) in Hin. lia.
Qed.

(** X4: a negative [top_k] does not select "the last [top_k]": the slice
    [idxes[-top_k:]] then drops the first [-top_k] indices of the argsort,
    so the call sums the channels of the [n - |top_k|] largest entries of
    [preds[0]], and returns the zero map once [|top_k| >= n]. *)
Theorem postprocess_negative_top_k
        (h : heap A) (preds cams : loc) (top_k : Z) (p t : ndarray A)
        (r n B H W C : nat) :
  nth_error h preds = Some p -> shape p = [S r; n] -> well_formed p ->
  nth_error h cams = Some t -> shape t = [S B; H; W; C] ->
  n <= C -> 0 < C ->
  is_argsort zero leb (row0 p) (argsort (row0 p)) ->
  (top_k < 0)%Z ->
  exists idxes result,
    postprocess zero add argsort preds cams top_k h =
      (Ok (length h), h ++ [result]) /\
    is_top_k zero leb (row0 p) (n - Z.to_nat (- top_k)) idxes /\
    shape result = [H; W] /\
    (forall y x, y < H -> x < W ->
       getitem2 zero result y x = pointwise_sum zero add t idxes y x) /\
    ((Z.of_nat n <= - top_k)%Z ->
     forall y x, y < H -> x < W -> getitem2 zero result y x = zero).
Proof.
  intros Hp Hsp Hwf Hc Hst HnC HC Hsort Hk.
  pose proof (length_row0 p r n Hsp Hwf) as Hlen.
  pose proof (is_argsort_length zero leb _ _ Hsort) as Hlidx.
  pose proof (is_top_k_skipn zero leb _ _ (n - Z.to_nat (- top_k)) Hsort)
    as Htop.
  pose proof (postprocess_selected h preds cams top_k p t r n B H W C
                Hp Hsp Hwf Hc Hst HnC HC Hsort) as Hrun.
  unfold slice_from in Hrun.
  rewrite Hlidx, Hlen, slice_start_negative_top in Hrun by exact Hk.
  rewrite Hlen in Htop.
  set (idxes := skipn (n - (n - Z.to_nat (- top_k))) (argsort (row0 p))) in *.
  clearbody idxes.
  exists idxes, (summed zero add t H W C idxes).
  split; [exact Hrun|]. split; [exact Htop|]. split; [reflexivity|].
  split.
  - intros y x Hy Hx. now apply (getitem2_summed zero add t (S B)).
  - intros Hbig y x Hy Hx.
    destruct Htop as (_ & Hl & _).
    destruct idxes as [|i idxes]; [|cbn [length] in Hl; lia].
    now rewrite (getitem2_summed zero add t (S B)) by auto.
Qed.

(** X5: when the addition of the scalars is associative and commutative, a
    call with [top_k = 0], or with [top_k] above the number [C] of classes,
    returns at each pixel the sum of the channels [0, ..., C - 1] in this
    order: the result does not depend on the predictions at all. *)
Theorem postprocess_all_channels_in_order
        (h : heap A) (preds cams : loc) (top_k : Z) (p t : ndarray A)
        (r B H W C : nat) :
  (forall a b c, add (add a b) c = add a (add b c)) ->
  (forall a b, add a b = add b a) ->
  nth_error h preds = Some p -> shape p = [S r; C] -> well_formed p ->
  nth_error h cams = Some t -> shape t = [S B; H; W; C] ->
  0 < C ->
  is_argsort zero leb (row0 p) (argsort (row0 p)) ->
  top_k = 0%Z \/ (Z.of_nat C < top_k)%Z ->
  exists result,
    postprocess zero add argsort preds cams top_k h =
      (Ok (length h), h ++ [result]) /\
    (forall y x, y < H -> x < W ->
       getitem2 zero result y x = pointwise_sum zero add t (seq 0 C) y x).
Proof.
  intros Hassoc Hcomm Hp Hsp Hwf Hc Hst HC Hsort Hk.
  pose proof (length_row0 p r C Hsp Hwf) as Hlen.
  pose proof (is_argsort_length zero leb _ _ Hsort) as Hlidx.
  pose proof (postprocess_selected h preds cams top_k p t r C B H W C
                Hp Hsp Hwf Hc Hst (le_n C) HC Hsort) as Hrun.
  unfold slice_from in Hrun.
  rewrite slice_start_all in Hrun by lia. cbn [skipn] in Hrun.
  eexists. split; [exact Hrun|].
  intros y x Hy Hx.
  rewrite (getitem2_summed zero add t (S B)) by auto.
  unfold pointwise_sum.
  apply (fold_left_permutation add Hassoc Hcomm).
  apply Permutation_map.
  destruct Hsort as [Hperm _]. now rewrite Hlen in Hperm.
Qed.

(** X6: every call allocates its own accumulator.  A second call with the
    same arguments, made after a first one that returned, returns the next
    cell with an equal array, and the array of the first call is still in
    its cell. *)
Theorem postprocess_twice
        (h h1 : heap A) (preds cams cam : loc) (top_k : Z) :
  postprocess zero add argsort preds cams top_k h = (Ok cam, h1) ->
  exists result,
    cam = length h /\
    h1 = h ++ [result] /\
    postprocess zero add argsort preds cams top_k h1 =
      (Ok (S cam), h ++ [result; result]).
Proof.
  intros Hrun.
  destruct (postprocess_inv zero add argsort _ _ _ _ _ _ Hrun)
    as (p & t & idxes & B & H & W & C & Hp & Hidx & Hc & Hs & HC & Hall).
  rewrite (postprocess_run zero add argsort h preds cams top_k p t idxes
             B H W C Hp Hidx Hc Hs HC Hall) in Hrun.
  injection Hrun as <- <-.
  exists (summed zero add t H W C idxes).
  split; [reflexivity|]. split; [reflexivity|].
  assert (Hp1 : nth_error (h ++ [summed zero add t H W C idxes]) preds =
                Some p).
  { rewrite nth_error_app1; auto. apply nth_error_Some. congruence. }
  assert (Hc1 : nth_error (h ++ [summed zero add t H W C idxes]) cams =
                Some t).
  { rewrite nth_error_app1; auto. apply nth_error_Some. congruence. }
  rewrite (postprocess_run zero add argsort _ preds cams top_k p t idxes
             B H W C Hp1 Hidx Hc1 Hs HC Hall).
  rewrite length_app, Nat.add_1_r, <- app_assoc. reflexivity.
Qed.

End PostprocessSelection.

(** ** The stable argsort is an argsort *)

Section StableArgsort.

Context {A : Type}.
Variable zero : A.
Variable leb : A -> A -> bool.
Variable row : list A.

Lemma insert_index_perm (i : nat) (l : list nat) :
  Permutation (insert_index zero leb row i l) (i :: l).
Proof.
  induction l as [|j l IH]; simpl; auto.
  destruct (leb (key zero row i) (key zero row j)); auto.
  apply perm_trans with (j :: i :: l); [now apply perm_skip|apply perm_swap].
Qed.

Lemma fold_insert_index_perm (l : list nat) :
  Permutation (fold_right (insert_index zero leb row) [] l) l.
Proof.
  induction l as [|i l IH]; simpl; auto.
  apply perm_trans with (i :: fold_right (insert_index zero leb row) [] l).
  - apply insert_index_perm.
  - now apply perm_skip.
Qed.

Hypothesis leb_total : forall a b, leb a b = true \/ leb b a = true.
Hypothesis leb_trans :
  forall a b c, leb a b = true -> leb b c = true -> leb a c = true.

Lemma insert_index_sorted (i : nat) (l : list nat) :
  StronglySorted (fun i j => leb (key zero row i) (key zero row j) = true) l ->
  StronglySorted (fun i j => leb (key zero row i) (key zero row j) = true)
                 (insert_index zero leb row i l).
Proof.
  induction l as [|j l IH]; simpl; intros Hs.
  - repeat constructor.
  - apply StronglySorted_inv in Hs. destruct Hs as [Hs Hall].
    destruct (leb (key zero row i) (key zero row j)) eqn:Hij.
    + constructor; [constructor; auto|].
      constructor; [exact Hij|].
      rewrite Forall_forall in *. intros x Hx.
      apply (leb_trans _ _ _ Hij). now apply Hall.
    + constructor; [now apply IH|].
      rewrite Forall_forall in *. intros x Hx.
      apply (Permutation_in _ (insert_index_perm i l)) in Hx.
      destruct Hx as [<-|Hx]; [|now apply Hall].
      destruct (leb_total (key zero row i) (key zero row j)); congruence.
Qed.

Lemma stable_argsort_is_argsort :
  is_argsort zero leb row (stable_argsort zero leb row).
Proof.
  unfold is_argsort, stable_argsort. split.
  - apply fold_insert_index_perm.
  - induction (seq 0 (length row)) as [|i l IH]; simpl.
    + constructor.
    + now apply insert_index_sorted.
Qed.

End StableArgsort.

Lemma demo_argsort (row : list Z) :
  is_argsort 0%Z Z.leb row (Demo.argsort row).
Proof.
  apply stable_argsort_is_argsort.
  - intros a b. rewrite !Z.leb_le. lia.
  - intros a b c. rewrite !Z.leb_le. lia.
Qed.

(** ** Building a backend: success and failures *)

Section BackendConstruction.

Context {A : Type}.
Variable zero : A.
Variable E : env A.

(** X7: the constructor of the backend of a network succeeds as soon as the
    classification layer of the network holds a kernel of [D * 1000]
    scalars and a bias of shape [(1000,)], its last feature map has [D]
    channels, it has one output, and the names of its layers and of the two
    grafted layers are all different.  The backend carries the input size
    and the preprocess function of its class and the grafted model, and the
    only effect is that the network was built. *)
Theorem backend_of_succeeds
        (n : network) (w : world A) (model : keras_model A)
        (pred conv : layer A) (W b : ndarray A) (h wd D : nat)
        (out : tensor) :
  applications E n [input_size_of n; input_size_of n; 3] = Ok model ->
  get_layer model (pred_layer_of n) = Ok pred ->
  getitem (weights pred) 0 = Ok W ->
  getitem (weights pred) 1 = Ok b ->
  size_of (shape W) = D * N_CLASSES ->
  shape b = [N_CLASSES] ->
  get_layer model (last_conv_layer_of n) = Ok conv ->
  static_shape (output conv) = [h; wd; D] ->
  model_output model = Ok out ->
  unique (map name (layers model)
          ++ ["up_sampling2d_1"; "predictions_2"]%string) = true ->
  backend_of zero E n w =
  (Ok {| input_size := input_size_of n;
         preprocess_fn := preprocess_of E n;
         cam_model := grafted_model model out h wd D W b |},
   built w n (input_size_of n)).
Proof.
  intros Happ Hpred HW Hb Hsize Hsb Hconv Hs Hout Hu.
  rewrite backend_of_unfold. unfold _Backend__init__, bind.
  now rewrite (create_cam_model_ok zero E _ n _ _ w model pred conv W b
                 h wd D out).
Qed.

(** X8: when the number of scalars of the classification kernel is not a
    multiple of [N_CLASSES], the reshape to [(1, 1, -1, 1000)] raises
    [ValueError]; the network has been built by then. *)
Theorem create_cam_model_bad_kernel_size
        (size : nat) (model_class : network)
        (last_conv_layer pred_layer : string) (w : world A)
        (model : keras_model A) (pred : layer A) (W : ndarray A) :
  applications E model_class [size; size; 3] = Ok model ->
  get_layer model pred_layer = Ok pred ->
  getitem (weights pred) 0 = Ok W ->
  size_of (shape W) mod N_CLASSES <> 0 ->
  _create_cam_model zero E size model_class last_conv_layer pred_layer w =
  (Raise ValueError, built w model_class size).
Proof.
  intros Happ Hpred HW Hsize.
  unfold _create_cam_model.
  unfold bind at 1, instantiate. rewrite Happ.
  unfold bind at 1, lift at 1. rewrite Hpred.
  unfold bind at 1, lift at 1. rewrite HW.
  unfold bind at 1, lift at 1, reshape_1_1_infer.
  apply Nat.eqb_neq in Hsize. rewrite Hsize. reflexivity.
Qed.

(** X9: when the last feature map has [c] channels and the classification
    kernel reshapes to a depth [D] other than [c], the weights do not fit
    the grafted convolution and [set_weights] raises [ValueError]; the
    network has been built by then. *)
Theorem create_cam_model_channel_mismatch
        (size : nat) (model_class : network)
        (last_conv_layer pred_layer : string) (w : world A)
        (model : keras_model A) (pred conv : layer A) (W b : ndarray A)
        (h wd c D : nat) (out : tensor) :
  applications E model_class [size; size; 3] = Ok model ->
  get_layer model pred_layer = Ok pred ->
  getitem (weights pred) 0 = Ok W ->
  getitem (weights pred) 1 = Ok b ->
  size_of (shape W) = D * N_CLASSES ->
  get_layer model last_conv_layer = Ok conv ->
  static_shape (output conv) = [h; wd; c] ->
  model_output model = Ok out ->
  unique (map name (layers model)
          ++ ["up_sampling2d_1"; "predictions_2"]%string) = true ->
  c <> D ->
  _create_cam_model zero E size model_class last_conv_layer pred_layer w =
  (Raise ValueError, built w model_class size).
Proof.
  intros Happ Hpred HW Hb Hsize Hconv Hs Hout Hu Hne.
  destruct (names_of_grafted _ Hu) as [Hn2 Hn1].
  unfold _create_cam_model.
  unfold bind at 1, instantiate. rewrite Happ.
  unfold bind at 1, lift at 1. rewrite Hpred.
  unfold bind at 1, lift at 1. rewrite HW.
  unfold bind at 1, lift at 1.
  assert (Hreshape : reshape_1_1_infer W N_CLASSES =
                     Ok {| shape := [1; 1; D; N_CLASSES]; data := data W |}).
  { unfold reshape_1_1_infer. rewrite Hsize.
    rewrite Nat.Div0.mod_mul, Nat.div_mul by discriminate. reflexivity. }
  rewrite Hreshape.
  unfold bind at 1, lift at 1. rewrite Hb.
  unfold bind at 1, lift at 1. rewrite Hconv.
  unfold bind at 1, lift at 1.
  unfold UpSampling2D at 1. rewrite Hs.
  cbn [String.eqb Ascii.eqb Bool.eqb negb orb].
  unfold bind at 1, lift at 1.
  unfold Conv2D. cbn [output static_shape fst snd].
  unfold bind at 1, lift at 1. rewrite Hout.
  unfold bind at 1, lift at 1.
  unfold Model. rewrite map_app. cbn [map name].
  rewrite Hu.
  unfold lift, set_weights, get_layer.
  cbn [layers].
  rewrite find_name_app by exact Hn2.
  cbn [find name String.eqb Ascii.eqb Bool.eqb res_bind weights].
  unfold same_shapes.
  cbn [length combine forallb fst snd shape Nat.eqb andb].
  destruct (shape_eqb [1; 1; c; N_CLASSES] [1; 1; D; N_CLASSES]) eqn:Heq.
  - apply shape_eqb_true in Heq. injection Heq as ->. now elim Hne.
  - reflexivity.
Qed.

End BackendConstruction.

(** ** [load_img]: the channels, the batch and the model *)

Lemma nth_flat_map_chunks {X : Type} (d : X) (g : nat -> list X) (C : nat) :
  forall (n s p c : nat),
    (forall q, s <= q < s + n -> length (g q) = C) ->
    p < n -> c < C ->
    nth (p * C + c) (flat_map g (seq s n)) d = nth c (g (s + p)) d.
Proof.
  induction n as [|n IH]; intros s p c Hlen Hp Hc; [lia|].
  cbn [seq flat_map]. destruct p as [|p].
  - rewrite app_nth1 by (rewrite Hlen; lia).
    now rewrite Nat.add_0_r.
  - rewrite app_nth2 by (rewrite Hlen; lia).
    rewrite Hlen by lia.
    replace (S p * C + c - C) with (p * C + c) by lia.
    rewrite IH; [f_equal; f_equal; lia| |lia|exact Hc].
    intros q Hq. apply Hlen. lia.
Qed.

Section LoadImg.

Context {A : Type}.
Variable zero : A.
Variable E : env A.

Lemma getitem3_reverse_channels (raw : ndarray A) (H W C y x c : nat) :
  shape raw = [H; W; C] -> well_formed raw ->
  y < H -> x < W -> c < C ->
  getitem3 zero
    {| shape := [H; W; C];
       data := flat_map
                 (fun p => rev (firstn C (skipn (p * C) (data raw))))
                 (seq 0 (H * W)) |} y x c =
  getitem3 zero raw y x (C - 1 - c).
Proof.
  intros Hs Hwf Hy Hx Hc. unfold getitem3. rewrite Hs. cbn [shape data].
  unfold well_formed in Hwf. rewrite Hs in Hwf. cbn [size_of fold_right] in Hwf.
  assert (Hp : y * W + x < H * W) by nia.
  rewrite (nth_flat_map_chunks zero _ C); [|intros q Hq|exact Hp|exact Hc].
  2: { rewrite length_rev, length_firstn, length_skipn. nia. }
  cbn [Nat.add].
  assert (Hl : length (firstn C (skipn ((y * W + x) * C) (data raw))) = C).
  { rewrite length_firstn, length_skipn. nia. }
  rewrite rev_nth by (rewrite Hl; exact Hc).
  rewrite Hl, nth_firstn.
  destruct (Nat.ltb_spec (C - S c) C); [|lia].
  rewrite nth_skipn. f_equal. lia.
Qed.

(** X10: the image that [load_img] returns as the original is the image
    read by [cv2.imread] with its last axis reversed: the same rows and
    columns, and channel [c] of each pixel is channel [C - 1 - c] of the
    file's pixel, so a BGR image is returned as RGB. *)
Theorem load_img_reverses_channels
        (self : _Backend A) (fname : string)
        (raw imgs original_img : ndarray A) (original_size : nat * nat) :
  imread E fname = Some raw ->
  well_formed raw ->
  load_img E self fname = Ok (imgs, original_img, original_size) ->
  exists H W C,
    shape raw = [H; W; C] /\
    shape original_img = [H; W; C] /\
    forall y x c, y < H -> x < W -> c < C ->
      getitem3 zero original_img y x c = getitem3 zero raw y x (C - 1 - c).
Proof.
  intros Hread Hwf Hload. unfold load_img in Hload. rewrite Hread in Hload.
  unfold reverse_channels in Hload.
  destruct (shape raw) as [|H [|W [|C [|? ?]]]] eqn:Hs; try discriminate.
  cbn [res_bind] in Hload.
  destruct (cv2_resize _ _ _) as [img| |]; try discriminate.
  cbn [res_bind] in Hload. injection Hload as _ <- _.
  exists H, W, C. split; [reflexivity|]. split; [reflexivity|].
  intros y x c Hy Hx Hc. now apply getitem3_reverse_channels.
Qed.

Lemma load_img_ok (self : _Backend A) (fname : string) (raw : ndarray A)
      (H W C : nat) :
  imread E fname = Some raw ->
  shape raw = [H; W; C] ->
  0 < H -> 0 < W -> 2 <= C -> 0 < input_size self ->
  (forall x, shape (preprocess_fn self x) = shape x) ->
  exists imgs original_img,
    load_img E self fname = Ok (imgs, original_img, (W, H)) /\
    shape imgs = [1; input_size self; input_size self; C].
Proof.
  intros Hread Hs HH HW HC HS Hpre.
  unfold load_img, reverse_channels. rewrite Hread, Hs.
  unfold cv2_resize, res_bind. cbn [shape nth].
  assert (HH0 : (H =? 0) = false) by (apply Nat.eqb_neq; lia).
  assert (HW0 : (W =? 0) = false) by (apply Nat.eqb_neq; lia).
  assert (HS0 : (input_size self =? 0) = false) by (apply Nat.eqb_neq; lia).
  assert (HC2 : (2 <=? C) = true) by (apply Nat.leb_le; lia).
  rewrite HH0, HW0, HS0, HC2. cbn [orb].
  eexists. eexists. split; [reflexivity|].
  unfold expand_dims0. cbn [shape]. now rewrite Hpre.
Qed.

(** X11: the batch that [load_img] makes fits the model of the backend.
    For a backend whose network has the input shape it was asked for, and
    whose preprocess function keeps shapes, the batch loaded from a
    three-channel image is accepted by [predict], which returns the values
    of the two outputs of the model on it. *)
Theorem loaded_batch_is_predicted
        (n : network) (w w' : world A) (b : _Backend A) (fname : string)
        (raw : ndarray A) (H W : nat) :
  backend_of zero E n w = (Ok b, w') ->
  (forall model,
     applications E n [input_size_of n; input_size_of n; 3] = Ok model ->
     static_shape (input model) = [input_size_of n; input_size_of n; 3]) ->
  (forall x, shape (preprocess_of E n x) = shape x) ->
  imread E fname = Some raw ->
  shape raw = [H; W; 3] ->
  0 < H -> 0 < W ->
  exists imgs original_img out x,
    load_img E b fname = Ok (imgs, original_img, (W, H)) /\
    outputs (cam_model b) = [out; x] /\
    predict E b imgs =
      Ok (forward E (cam_model b) out imgs, forward E (cam_model b) x imgs).
Proof.
  intros Hrun Hinput Hpre Hread Hs HH HW.
  rewrite backend_of_unfold in Hrun.
  apply backend_init_inv in Hrun. destruct Hrun as (Hrun & Hsize & Hpf).
  apply create_cam_model_inv in Hrun.
  destruct Hrun as (model & pred & conv & Wk & bias & h & wd & D & out &
                    Happ & _ & _ & _ & _ & _ & _ & _ & _ & _ & Hcam & _).
  destruct (load_img_ok b fname raw H W 3 Hread Hs HH HW (le_S _ _ (le_n 2)))
    as (imgs & oimg & Hload & Hshape).
  - rewrite Hsize. destruct n; cbn [input_size_of]; lia.
  - intros x. rewrite Hpf. apply Hpre.
  - exists imgs, oimg, out, (output (grafted_conv h wd D Wk bias)).
    split; [exact Hload|]. rewrite Hcam. split; [reflexivity|].
    unfold predict, Model_predict. rewrite Hshape, Hsize, Hcam.
    change (input (grafted_model model out h wd D Wk bias))
      with (input model).
    rewrite (Hinput model Happ), shape_eqb_refl. reflexivity.
Qed.

End LoadImg.

(** ** The main program: failures and effects *)

Lemma firstn_length_app {X : Type} (h l : list X) :
  firstn (length h) (h ++ l) = h.
Proof.
  now rewrite firstn_app, Nat.sub_diag, firstn_all, app_nil_r.
Qed.

Section MainProgram.

Context {A : Type}.
Variable zero : A.
Variable add : A -> A -> A.
Variable leb : A -> A -> bool.
Variable argsort : list A -> list nat.
Variable E : env A.

Lemma select_backend_effects (s : string) (w w' : world A)
      (r : res (_Backend A)) :
  select_backend zero E s w = (r, w') ->
  (r = Raise ValueError /\ w' = w) \/
  (exists n, w' = built w n (input_size_of n)).
Proof.
  unfold select_backend.
  destruct (String.eqb s "resnet");
    [|destruct (String.eqb s "nasnet");
      [|destruct (String.eqb s "inception")]];
    intros Hrun.
  - right. exists ResNet50.
    now apply (backend_init_world zero E) in Hrun.
  - right. exists NASNetLarge.
    now apply (backend_init_world zero E) in Hrun.
  - right. exists InceptionResNetV2.
    now apply (backend_init_world zero E) in Hrun.
  - left. injection Hrun as <- <-. now split.
Qed.

(** X12: a network name other than the three accepted ones ends the main
    program with [ValueError] before the image file is looked at: whatever
    the path, nothing is built, stored or drawn. *)
Theorem main_unknown_network
        (input_image_file base_network : string) (w : world A) :
  base_network <> "resnet"%string ->
  base_network <> "nasnet"%string ->
  base_network <> "inception"%string ->
  main zero add argsort E input_image_file base_network w =
  (Raise ValueError, w).
Proof.
  intros H1 H2 H3. unfold main, bind at 1, select_backend.
  apply String.eqb_neq in H1, H2, H3. now rewrite H1, H2, H3.
Qed.

(** X13: a file that [cv2.imread] cannot read ends the main program with
    [TypeError], raised by the indexing of [None], and only after the
    backend was constructed: one network has been built, and nothing is
    stored or drawn. *)
Theorem main_unreadable_image
        (input_image_file base_network : string) (w w1 : world A)
        (cam_builder : _Backend A) :
  select_backend zero E base_network w = (Ok cam_builder, w1) ->
  imread E input_image_file = None ->
  main zero add argsort E input_image_file base_network w =
    (Raise TypeError, w1) /\
  exists n, w1 = built w n (input_size_of n).
Proof.
  intros Hsel Hread. split.
  - unfold main, bind at 1. rewrite Hsel.
    unfold bind at 1, lift at 1, load_img. now rewrite Hread.
  - apply select_backend_effects in Hsel.
    destruct Hsel as [[Hr _]|Hn]; [discriminate|exact Hn].
Qed.

(** X14: whatever the outcome of the main program, the arrays that were in
    the store are still there, at most one network has been built, and
    unless the program completed, [plt.show()] was not called and at most
    the original image was drawn. *)
Theorem main_effects
        (input_image_file base_network : string) (w w' : world A)
        (r : res unit) :
  main zero add argsort E input_image_file base_network w = (r, w') ->
  firstn (length (store w)) (store w') = store w /\
  (instantiated w' = instantiated w \/
   exists n,
     instantiated w' =
       instantiated w ++ [(n, [input_size_of n; input_size_of n; 3])]) /\
  (r = Ok tt \/
   (shown w' = shown w /\
    (axes w' = axes w \/
     exists original_img, axes w' = axes w ++ [(original_img, None)]))).
Proof.
  intros Hrun. unfold main in Hrun.
  unfold bind at 1 in Hrun.
  destruct (select_backend zero E base_network w) as [rb w1] eqn:Hsel.
  apply select_backend_effects in Hsel.
  destruct Hsel as [[-> ->]|[n ->]].
  { injection Hrun as <- <-.
    split; [apply firstn_all|]. split; [now left|]. right. now split; [|left]. }
  destruct rb as [b| |];
    try (injection Hrun as <- <-; cbn [built store instantiated axes shown];
         split; [apply firstn_all|]; split; [right; now exists n|];
         right; split; [reflexivity|now left]).
  unfold bind at 1, lift at 1 in Hrun.
  destruct (load_img E b input_image_file) as [[[imgs oimg] osize]| |];
    try (injection Hrun as <- <-; cbn [built store instantiated axes shown];
         split; [apply firstn_all|]; split; [right; now exists n|];
         right; split; [reflexivity|now left]).
  unfold bind at 1, lift at 1 in Hrun.
  destruct (predict E b imgs) as [[preds_array cams_array]| |];
    try (injection Hrun as <- <-; cbn [built store instantiated axes shown];
         split; [apply firstn_all|]; split; [right; now exists n|];
         right; split; [reflexivity|now left]).
  unfold bind at 1, in_store at 1, alloc at 1 in Hrun.
  unfold bind at 1, in_store at 1, alloc at 1 in Hrun.
  unfold bind at 1, in_store at 1 in Hrun.
  cbn [built store instantiated axes shown] in Hrun.
  destruct (postprocess zero add argsort _ _ 1 _) as [rc h2] eqn:Hpost.
  apply postprocess_frame in Hpost.
  assert (Hpre : firstn (length (store w)) h2 = store w).
  { rewrite <- (firstn_skipn
                    (length ((store w ++ [preds_array]) ++ [cams_array])) h2).
    rewrite Hpost, <- !app_assoc. apply firstn_length_app. }
  destruct rc as [cam| |];
    try (injection Hrun as <- <-; cbn [store instantiated axes shown];
         split; [exact Hpre|]; split; [right; now exists n|];
         right; split; [reflexivity|now left]).
  unfold bind at 1, in_store at 1, deref at 1 in Hrun.
  cbn [store instantiated axes shown] in Hrun.
  destruct (nth_error h2 cam) as [class_activation_map|];
    [|injection Hrun as <- <-; cbn [store instantiated axes shown];
      split; [exact Hpre|]; split; [right; now exists n|];
      right; split; [reflexivity|now left]].
  unfold bind at 1, plt_imshow at 1 in Hrun.
  cbn [store instantiated axes shown] in Hrun.
  unfold bind at 1, lift at 1 in Hrun.
  destruct (cv2_resize (interpolate E) class_activation_map osize)
    as [overlay| |];
    try (injection Hrun as <- <-; cbn [store instantiated axes shown];
         split; [exact Hpre|]; split; [right; now exists n|];
         right; split; [reflexivity|right; now exists oimg]).
  unfold bind, plt_imshow, plt_show in Hrun.
  cbn [store instantiated axes shown] in Hrun.
  injection Hrun as <- <-. cbn [store instantiated axes shown].
  split; [exact Hpre|]. split; [right; now exists n|]. now left.
Qed.

End MainProgram.

(** ** The main program: what is overlaid *)

Section MainTopClass.

Context {A : Type}.
Variable zero : A.
Variable add : A -> A -> A.
Variable leb : A -> A -> bool.
Variable argsort : list A -> list nat.
Variable E : env A.

Lemma top_indices_inv (p : ndarray A) (top_k : Z) (idxes : list nat) :
  top_indices argsort p top_k = Ok idxes ->
  exists r n,
    shape p = [S r; n] /\
    idxes = slice_from (- top_k) (argsort (row0 p)).
Proof.
  unfold top_indices, getitem0, row0.
  destruct (shape p) as [|[|r] [|n [|? ?]]]; try discriminate.
  cbn [res_bind np_argsort shape data tl]. intros [= <-].
  now exists r, n.
Qed.

(** X15: when the main program completes, with an argsort that sorts and a
    zero that is neutral on the left, the store has gained the predictions,
    the activation tensor and the map, in this order, and the map that is
    resized and drawn with the colour map ["jet"] is, unless the prediction
    has no class at all, the activation channel of one class [i] whose
    score no other class exceeds. *)
Theorem main_overlays_top_class
        (input_image_file base_network : string) (w w' : world A) :
  (forall row, is_argsort zero leb row (argsort row)) ->
  (forall a, add zero a = a) ->
  main zero add argsort E input_image_file base_network w = (Ok tt, w') ->
  exists cam_builder imgs preds cams class_activation_map overlay H W,
    predict E cam_builder imgs = Ok (preds, cams) /\
    store w' = store w ++ [preds; cams; class_activation_map] /\
    shape class_activation_map = [H; W] /\
    In (overlay, Some "jet"%string) (axes w') /\
    (exists size,
       cv2_resize (interpolate E) class_activation_map size = Ok overlay) /\
    (row0 preds = [] \/
     exists i,
       i < length (row0 preds) /\
       (forall j, j < length (row0 preds) -> j <> i ->
          leb (key zero (row0 preds) j) (key zero (row0 preds) i) = true) /\
       (forall y x, y < H -> x < W ->
          getitem2 zero class_activation_map y x =
          getitem4 zero cams 0 y x i)).
Proof.
  intros Hsort Hzero Hrun. unfold main in Hrun.
  unfold bind at 1 in Hrun.
  destruct (select_backend zero E base_network w) as [[b| |] w1] eqn:Hsel;
    try discriminate.
  apply select_backend_world in Hsel. destruct Hsel as [Hst1 Hax1].
  unfold bind at 1, lift at 1 in Hrun.
  destruct (load_img E b input_image_file) as [[[imgs oimg] osize]| |];
    try discriminate.
  unfold bind at 1, lift at 1 in Hrun.
  destruct (predict E b imgs) as [[preds_array cams_array]| |] eqn:Hpred;
    try discriminate.
  unfold bind at 1, in_store at 1, alloc at 1 in Hrun.
  unfold bind at 1, in_store at 1, alloc at 1 in Hrun.
  unfold bind at 1, in_store at 1 in Hrun.
  cbn [store instantiated axes shown] in Hrun.
  destruct (postprocess zero add argsort _ _ 1 _) as [[cam| |] h2] eqn:Hpost;
    try discriminate.
  destruct (postprocess_inv zero add argsort _ _ _ _ _ _ Hpost)
    as (p & t & idxes & B & H & W & C & Hp & Hidx & Hcm & Hsh & HC & Hall).
  rewrite (postprocess_run zero add argsort _ _ _ _ p t idxes B H W C
             Hp Hidx Hcm Hsh HC Hall) in Hpost.
  injection Hpost as <- <-.
  rewrite nth_error_app1 in Hp by (rewrite length_app; cbn [length]; lia).
  rewrite nth_error_app2, Nat.sub_diag in Hp by lia.
  rewrite nth_error_app2, Nat.sub_diag in Hcm by lia.
  injection Hp as <-. injection Hcm as <-.
  unfold bind at 1, in_store at 1, deref at 1 in Hrun.
  cbn [store instantiated axes shown] in Hrun.
  rewrite nth_error_app2, Nat.sub_diag in Hrun by lia.
  cbn [nth_error] in Hrun.
  unfold bind at 1, plt_imshow at 1 in Hrun.
  cbn [store instantiated axes shown] in Hrun.
  unfold bind at 1, lift at 1 in Hrun.
  destruct (cv2_resize (interpolate E) _ osize) as [overlay| |] eqn:Hov;
    try discriminate.
  unfold bind, plt_imshow, plt_show in Hrun.
  cbn [store instantiated axes shown] in Hrun.
  injection Hrun as <-. cbn [store axes].
  exists b, imgs, preds_array, cams_array,
    (summed zero add cams_array H W C idxes), overlay, H, W.
  split; [exact Hpred|].
  split; [now rewrite Hst1, <- !app_assoc|].
  split; [reflexivity|].
  split; [apply in_or_app; right; now left|].
  split; [now exists osize|].
  destruct (top_indices_inv _ _ _ Hidx) as (r & n & Hsp & Hsel).
  pose proof (Hsort (row0 preds_array)) as Hrow.
  pose proof (is_argsort_length zero leb _ _ Hrow) as Hlidx.
  pose proof (is_top_k_skipn zero leb _ _ 1 Hrow) as Htop.
  unfold slice_from in Hsel.
  rewrite Hlidx, slice_start_top in Hsel by lia.
  change (Z.to_nat 1) with 1 in Hsel. rewrite <- Hsel in Htop.
  destruct Htop as (_ & Hl & Hin & Hdom).
  destruct (row0 preds_array) as [|a row] eqn:Hrow0; [now left|right].
  destruct idxes as [|i [|? ?]]; cbn [length] in Hl; try lia.
  exists i. split; [apply Hin; now left|]. split.
  - intros j Hj Hne. apply Hdom; [now left|exact Hj|].
    intros [->|[]]. now apply Hne.
  - intros y x Hy Hx.
    rewrite (getitem2_summed zero add cams_array (S B)) by auto.
    unfold pointwise_sum. cbn [map fold_left]. apply Hzero.
Qed.

End MainTopClass.

(** ** Concrete runs for the further properties *)

Lemma postprocess_no_rows_witness :
  let h := [mk_ndarray [0; 3] ([] : list Z); Demo.cams_array] in
  postprocess 0%Z Z.add Demo.argsort 0 1 1 h = (Raise IndexError, h).
Proof.
  intros h.
  apply (postprocess_no_rows 0%Z Z.add Demo.argsort h 0 1 1%Z
           (mk_ndarray [0; 3] []) [3]); reflexivity.
Defined.

Lemma postprocess_empty_cams_witness :
  let h := [Demo.preds_array; mk_ndarray [1; 4; 4; 0] ([] : list Z)] in
  postprocess 0%Z Z.add Demo.argsort 0 1 1 h = (Raise IndexError, h).
Proof.
  intros h.
  apply (postprocess_empty_cams 0%Z Z.add Demo.argsort h 0 1 1%Z
           Demo.preds_array (mk_ndarray [1; 4; 4; 0] []) [1] 1 4 4 0);
    try reflexivity.
  now right.
Defined.

Lemma postprocess_index_beyond_channels_witness :
  let h := [mk_ndarray [1; 3] [5; 7; 9]%Z;
            mk_ndarray [1; 1; 2; 2] [1; 2; 10; 20]%Z] in
  exists h',
    postprocess 0%Z Z.add Demo.argsort 0 1 1 h = (Raise IndexError, h') /\
    firstn (length h) h' = h.
Proof.
  intros h.
  apply (postprocess_index_beyond_channels 0%Z Z.add Demo.argsort h 0 1 1%Z
           (mk_ndarray [1; 3] [5; 7; 9]%Z)
           (mk_ndarray [1; 1; 2; 2] [1; 2; 10; 20]%Z) [2] 0 1 2 2);
    try reflexivity.
  - lia.
  - constructor. lia.
Defined.

Lemma postprocess_negative_top_k_witness :
  let p := Demo.preds_array in
  let t := Demo.cams_array in
  let h := [p; t] in
  exists idxes result,
    postprocess 0%Z Z.add Demo.argsort 0 1 (-1) h =
      (Ok (length h), h ++ [result]) /\
    is_top_k 0%Z Z.leb (row0 p) (3 - Z.to_nat (- (-1))) idxes /\
    shape result = [1; 2] /\
    (forall y x, y < 1 -> x < 2 ->
       getitem2 0%Z result y x = pointwise_sum 0%Z Z.add t idxes y x) /\
    ((Z.of_nat 3 <= - (-1))%Z ->
     forall y x, y < 1 -> x < 2 -> getitem2 0%Z result y x = 0%Z).
Proof.
  intros p t h.
  apply (postprocess_negative_top_k 0%Z Z.add Z.leb Demo.argsort
           h 0 1 (-1)%Z p t 0 3 0 1 2 3); try reflexivity; try lia.
  apply demo_argsort.
Defined.

Lemma postprocess_all_channels_in_order_witness :
  let p := Demo.preds_array in
  let t := Demo.cams_array in
  let h := [p; t] in
  exists result,
    postprocess 0%Z Z.add Demo.argsort 0 1 0 h =
      (Ok (length h), h ++ [result]) /\
    (forall y x, y < 1 -> x < 2 ->
       getitem2 0%Z result y x = pointwise_sum 0%Z Z.add t (seq 0 3) y x).
Proof.
  intros p t h.
  apply (postprocess_all_channels_in_order 0%Z Z.add Z.leb Demo.argsort
           h 0 1 0%Z p t 0 0 1 2 3);
    try reflexivity; try lia; try apply demo_argsort.
Defined.

Lemma postprocess_twice_witness :
  let h := [Demo.preds_array; Demo.cams_array] in
  exists result,
    2 = length h /\
    h ++ [mk_ndarray [1; 2] [2; 20]%Z] = h ++ [result] /\
    postprocess 0%Z Z.add Demo.argsort 0 1 1
                (h ++ [mk_ndarray [1; 2] [2; 20]%Z]) =
      (Ok 3, h ++ [result; result]).
Proof.
  intros h.
  apply (postprocess_twice 0%Z Z.add Demo.argsort h
           (h ++ [mk_ndarray [1; 2] [2; 20]%Z]) 0 1 2 1%Z).
  reflexivity.
Defined.

Lemma backend_of_succeeds_witness :
  backend_of 0%Z Demo.E InceptionResNetV2 Demo.w0 =
  (Ok {| input_size := input_size_of InceptionResNetV2;
         preprocess_fn := preprocess_of Demo.E InceptionResNetV2;
         cam_model :=
           grafted_model
             (Demo.network_model InceptionResNetV2 [299; 299; 3])
             (output (Demo.dense "predictions")) 8 8 2
             {| shape := [2; N_CLASSES];
                data := repeat 1%Z (2 * N_CLASSES) |}
             {| shape := [N_CLASSES]; data := repeat 2%Z N_CLASSES |} |},
   built Demo.w0 InceptionResNetV2 (input_size_of InceptionResNetV2)).
Proof.
  apply (backend_of_succeeds 0%Z Demo.E InceptionResNetV2 Demo.w0
           (Demo.network_model InceptionResNetV2 [299; 299; 3])
           (Demo.dense "predictions") (Demo.feature_map "conv_7b_ac" 8));
    reflexivity.
Defined.

Lemma create_cam_model_bad_kernel_size_witness :
  let odd := {| name := "fc1000"%string; config := Pretrained;
                output := {| producer := "fc1000";
                             static_shape := [N_CLASSES] |};
                weights := [mk_ndarray [3] [1; 2; 3]%Z] |} in
  let E := {| applications := fun _ sh =>
                Ok {| input := {| producer := "input_1";
                                  static_shape := sh |};
                      outputs := [output odd];
                      layers := [odd] |};
              glorot_uniform := glorot_uniform Demo.E;
              forward := forward Demo.E;
              resnet_preprocess := resnet_preprocess Demo.E;
              inception_resnet_preprocess :=
                inception_resnet_preprocess Demo.E;
              nasnet_preprocess := nasnet_preprocess Demo.E;
              imread := imread Demo.E;
              interpolate := interpolate Demo.E |} in
  _create_cam_model 0%Z E 224 ResNet50 "activation_49" "fc1000" Demo.w0 =
  (Raise ValueError, built Demo.w0 ResNet50 224).
Proof.
  intros odd E.
  apply (create_cam_model_bad_kernel_size 0%Z E 224 ResNet50
           "activation_49" "fc1000" Demo.w0
           {| input := {| producer := "input_1";
                          static_shape := [224; 224; 3] |};
              outputs := [output odd];
              layers := [odd] |}
           odd (mk_ndarray [3] [1; 2; 3]%Z)); try reflexivity.
  vm_compute. discriminate.
Defined.

Lemma create_cam_model_channel_mismatch_witness :
  let wide := Demo.feature_map "activation_49" 7 in
  let conv := {| name := name wide; config := Pretrained;
                 output := {| producer := "activation_49";
                              static_shape := [7; 7; 5] |};
                 weights := [] |} in
  let E := {| applications := fun _ sh =>
                Ok {| input := {| producer := "input_1";
                                  static_shape := sh |};
                      outputs := [output (Demo.dense "fc1000")];
                      layers := [conv; Demo.dense "fc1000"] |};
              glorot_uniform := glorot_uniform Demo.E;
              forward := forward Demo.E;
              resnet_preprocess := resnet_preprocess Demo.E;
              inception_resnet_preprocess :=
                inception_resnet_preprocess Demo.E;
              nasnet_preprocess := nasnet_preprocess Demo.E;
              imread := imread Demo.E;
              interpolate := interpolate Demo.E |} in
  _create_cam_model 0%Z E 224 ResNet50 "activation_49" "fc1000" Demo.w0 =
  (Raise ValueError, built Demo.w0 ResNet50 224).
Proof.
  intros wide conv E.
  apply (create_cam_model_channel_mismatch 0%Z E 224 ResNet50
           "activation_49" "fc1000" Demo.w0
           {| input := {| producer := "input_1";
                          static_shape := [224; 224; 3] |};
              outputs := [output (Demo.dense "fc1000")];
              layers := [conv; Demo.dense "fc1000"] |}
           (Demo.dense "fc1000") conv
           {| shape := [2; N_CLASSES]; data := repeat 1%Z (2 * N_CLASSES) |}
           {| shape := [N_CLASSES]; data := repeat 2%Z N_CLASSES |}
           7 7 5 2 (output (Demo.dense "fc1000"))); try reflexivity.
  lia.
Defined.

Lemma load_img_reverses_channels_witness :
  let self := mk_Backend 4 (fun x => x) (cam_model (Demo.backend ResNet50)) in
  let original_img :=
    mk_ndarray [2; 3; 3]
      [3; 2; 1; 6; 5; 4; 9; 8; 7; 12; 11; 10; 15; 14; 13; 18; 17; 16]%Z in
  exists H W C,
    shape Demo.dog = [H; W; C] /\
    shape original_img = [H; W; C] /\
    forall y x c, y < H -> x < W -> c < C ->
      getitem3 0%Z original_img y x c = getitem3 0%Z Demo.dog y x (C - 1 - c).
Proof.
  intros self original_img.
  apply (load_img_reverses_channels 0%Z Demo.E self "dog.png" Demo.dog
           (expand_dims0 (mk_ndarray [4; 4; 3] (repeat 0%Z 48)))
           original_img (3, 2)).
  - reflexivity.
  - vm_compute. reflexivity.
  - vm_compute. reflexivity.
Defined.

Lemma loaded_batch_is_predicted_witness :
  let b := Demo.backend ResNet50 in
  exists imgs original_img out x,
    load_img Demo.E b "dog.png" = Ok (imgs, original_img, (3, 2)) /\
    outputs (cam_model b) = [out; x] /\
    predict Demo.E b imgs =
      Ok (forward Demo.E (cam_model b) out imgs,
          forward Demo.E (cam_model b) x imgs).
Proof.
  intros b.
  apply (loaded_batch_is_predicted 0%Z Demo.E ResNet50 Demo.w0
           (built Demo.w0 ResNet50 224) b "dog.png" Demo.dog 2 3).
  - vm_compute. reflexivity.
  - intros model [= <-]. reflexivity.
  - intros x. reflexivity.
  - reflexivity.
  - reflexivity.
  - lia.
  - lia.
Defined.

Lemma main_unknown_network_witness :
  main 0%Z Z.add Demo.argsort Demo.E "dog.png" "vgg16" Demo.w0 =
  (Raise ValueError, Demo.w0).
Proof.
  apply (main_unknown_network 0%Z Z.add Demo.argsort Demo.E
           "dog.png" "vgg16" Demo.w0); discriminate.
Defined.

Lemma main_unreadable_image_witness :
  main 0%Z Z.add Demo.argsort Demo.E "cat.png" "nasnet" Demo.w0 =
    (Raise TypeError, built Demo.w0 NASNetLarge 331) /\
  exists n, built Demo.w0 NASNetLarge 331 = built Demo.w0 n (input_size_of n).
Proof.
  apply (main_unreadable_image 0%Z Z.add Demo.argsort Demo.E
           "cat.png" "nasnet" Demo.w0 (built Demo.w0 NASNetLarge 331)
           (Demo.backend NASNetLarge)).
  - vm_compute. reflexivity.
  - reflexivity.
Defined.

Lemma main_effects_witness :
  firstn (length (store Demo.w0)) (store Demo.w_end) = store Demo.w0 /\
  (instantiated Demo.w_end = instantiated Demo.w0 \/
   exists n,
     instantiated Demo.w_end =
       instantiated Demo.w0
       ++ [(n, [input_size_of n; input_size_of n; 3])]) /\
  (Ok tt = Ok tt \/
   (shown Demo.w_end = shown Demo.w0 /\
    (axes Demo.w_end = axes Demo.w0 \/
     exists original_img,
       axes Demo.w_end = axes Demo.w0 ++ [(original_img, None)]))).
Proof.
  apply (main_effects 0%Z Z.add Demo.argsort Demo.E "dog.png" "resnet"
           Demo.w0 Demo.w_end (Ok tt)).
  vm_compute. reflexivity.
Defined.

Lemma main_overlays_top_class_witness :
  exists cam_builder imgs preds cams class_activation_map overlay H W,
    predict Demo.E cam_builder imgs = Ok (preds, cams) /\
    store Demo.w_end =
      store Demo.w0 ++ [preds; cams; class_activation_map] /\
    shape class_activation_map = [H; W] /\
    In (overlay, Some "jet"%string) (axes Demo.w_end) /\
    (exists size,
       cv2_resize (interpolate Demo.E) class_activation_map size =
         Ok overlay) /\
    (row0 preds = [] \/
     exists i,
       i < length (row0 preds) /\
       (forall j, j < length (row0 preds) -> j <> i ->
          Z.leb (key 0%Z (row0 preds) j) (key 0%Z (row0 preds) i) = true) /\
       (forall y x, y < H -> x < W ->
          getitem2 0%Z class_activation_map y x =
          getitem4 0%Z cams 0 y x i)).
Proof.
  apply (main_overlays_top_class 0%Z Z.add Z.leb Demo.argsort Demo.E
           "dog.png" "resnet" Demo.w0 Demo.w_end).
  - apply demo_argsort.
  - intros a. reflexivity.
  - vm_compute. reflexivity.
Defined.
